(** * NLQ backend: query-safety validation and bounded execution

    A shallow embedding of [src/services/QueryExecutionService.js] (the
    validator, the bounded executor and the plan helpers) and of the
    orchestration in [NLQService.processQuery] / [LLMService.parseSQLResponse],
    followed by the properties of the specification that concern them.

    SQL text is modelled as a [string] over the 7-bit ASCII alphabet in which
    the keywords, patterns and white space of the service live; the string
    primitives below are the JavaScript ones restricted to that alphabet.
    Asynchronous code is embedded by explicit state passing: a [World] holds
    the wall clock and the traffic seen by the pooled database driver, the
    driver itself is an oracle that answers every call with a delay and a
    result or an error. *)

From Stdlib Require Import String Ascii List ZArith Bool Lia DecimalString.
Import ListNotations.

Local Open Scope string_scope.
Local Open Scope Z_scope.

(** ** JavaScript string primitives *)

Module Js.

Definition isLower (c : ascii) : bool :=
  let n := nat_of_ascii c in (Nat.leb 97 n && Nat.leb n 122)%bool.

Definition upperChar (c : ascii) : ascii :=
  if isLower c then ascii_of_nat (nat_of_ascii c - 32) else c.

(** [String.prototype.toUpperCase], as it acts on ASCII text: a to z go to
    A to Z and every other character is left alone. The special mappings of
    Unicode outside ASCII are not modelled. *)
Fixpoint toUpperCase (s : string) : string :=
  match s with
  | EmptyString => EmptyString
  | String c s' => String (upperChar c) (toUpperCase s')
  end.

(** White space and line terminators stripped by [trim]:
    TAB, LF, VT, FF, CR and SPACE. *)
Definition isWhiteSpace (c : ascii) : bool :=
  let n := nat_of_ascii c in
  (Nat.leb 9 n && Nat.leb n 13 || Nat.eqb n 32)%bool.

Fixpoint trimStart (s : string) : string :=
  match s with
  | EmptyString => EmptyString
  | String c s' => if isWhiteSpace c then trimStart s' else s
  end.

Fixpoint trimEnd (s : string) : string :=
  match s with
  | EmptyString => EmptyString
  | String c s' =>
      match trimEnd s' with
      | EmptyString => if isWhiteSpace c then EmptyString else String c EmptyString
      | t => String c t
      end
  end.

(** [String.prototype.trim] *)
Definition trim (s : string) : string := trimEnd (trimStart s).

(** [s.startsWith(p)] *)
Fixpoint startsWith (p s : string) : bool :=
  match p, s with
  | EmptyString, _ => true
  | String _ _, EmptyString => false
  | String a p', String b s' => (Ascii.eqb a b && startsWith p' s')%bool
  end.

(** [s.includes(p)] *)
Fixpoint includes (p s : string) : bool :=
  match s with
  | EmptyString => startsWith p EmptyString
  | String _ s' => (startsWith p s || includes p s')%bool
  end.

(** Template-literal rendering of an integral number. *)
Definition numberToString (n : Z) : string :=
  NilZero.string_of_int (Z.to_int n).

Fixpoint digitsValue (radix : Z) (acc : option Z) (s : string) : option Z :=
  match s with
  | EmptyString => acc
  | String c s' =>
      let n := Z.of_nat (nat_of_ascii c) in
      let d :=
        if (48 <=? n) && (n <=? 57) then Some (n - 48)
        else if (97 <=? n) && (n <=? 122) then Some (n - 87)
        else if (65 <=? n) && (n <=? 90) then Some (n - 55)
        else None in
      match d with
      | Some v =>
          if v <? radix
          then digitsValue radix (Some (radix * match acc with Some a => a | None => 0 end + v)) s'
          else acc
      | None => acc
      end
  end.

(** [parseInt(s)] without a radix argument; [None] is NaN. *)
Definition parseInt (s : string) : option Z :=
  let t := trimStart s in
  let '(neg, t) :=
    match t with
    | String "-" r => (true, r)
    | String "+" r => (false, r)
    | _ => (false, t)
    end in
  let v :=
    match t with
    | String "0" (String "x" r) | String "0" (String "X" r) => digitsValue 16 None r
    | _ => digitsValue 10 None t
    end in
  option_map (fun z => if neg then - z else z) v.

(** [parseInt(env) || fallback]: NaN, [undefined] and 0 are falsy. *)
Definition parseIntOr (env : option string) (fallback : Z) : Z :=
  match env with
  | None => fallback
  | Some s =>
      match parseInt s with
      | Some 0 | None => fallback
      | Some n => n
      end
  end.

End Js.

(** ** Regular expressions of [containsDangerousSubquery]

    The three patterns use literals, [.] and [*] under the [i] flag;
    [RegExp.prototype.test] looks for a match starting at any position. *)

Module Regex.

Inductive re : Type :=
| Void
| Eps
| Lit (c : ascii)
| Dot
| Cat (r1 r2 : re)
| Alt (r1 r2 : re)
| Star (r : re).

Definition isLineTerminator (c : ascii) : bool :=
  let n := nat_of_ascii c in (Nat.eqb n 10 || Nat.eqb n 13)%bool.

Fixpoint nullable (r : re) : bool :=
  match r with
  | Void | Lit _ | Dot => false
  | Eps | Star _ => true
  | Cat r1 r2 => (nullable r1 && nullable r2)%bool
  | Alt r1 r2 => (nullable r1 || nullable r2)%bool
  end.

(** Derivative with respect to one input character; literals compare
    after canonicalisation to upper case (the [i] flag). *)
Fixpoint deriv (c : ascii) (r : re) : re :=
  match r with
  | Void | Eps => Void
  | Lit a => if Ascii.eqb (Js.upperChar a) (Js.upperChar c) then Eps else Void
  | Dot => if isLineTerminator c then Void else Eps
  | Cat r1 r2 =>
      if nullable r1
      then Alt (Cat (deriv c r1) r2) (deriv c r2)
      else Cat (deriv c r1) r2
  | Alt r1 r2 => Alt (deriv c r1) (deriv c r2)
  | Star r1 => Cat (deriv c r1) (Star r1)
  end.

(** Some prefix of [s] is matched by [r]. *)
Fixpoint matchesPrefix (r : re) (s : string) : bool :=
  (nullable r ||
   match s with
   | EmptyString => false
   | String c s' => matchesPrefix (deriv c r) s'
   end)%bool.

(** [pattern.test(s)] *)
Fixpoint test (r : re) (s : string) : bool :=
  (matchesPrefix r s ||
   match s with
   | EmptyString => false
   | String _ s' => test r s'
   end)%bool.

Fixpoint lit (s : string) : re :=
  match s with
  | EmptyString => Eps
  | String c s' => Cat (Lit c) (lit s')
  end.

Definition dotStar : re := Star Dot.

End Regex.

(** ** The safety validator *)

Module Validator.

Import Js.

(** One constructor per [throw] site of [validateQuerySafety]. *)
Inductive ErrorKind : Type :=
| DangerousOperation (keyword : string)
| SystemTableAccess (table : string)
| FileSystemAccess
| DangerousFunction (func : string)
| NotASelect
| DangerousSubquery.

(** The message carried by the [Error] thrown at each site. *)
Definition message_of (k : ErrorKind) : string :=
  match k with
  | DangerousOperation keyword =>
      "Dangerous operation detected: " ++ keyword ++ " statements are not allowed"
  | SystemTableAccess table =>
      "Access to system table detected: " ++ table ++ " access is not allowed"
  | FileSystemAccess => "File system access operations are not allowed"
  | DangerousFunction func =>
      "Dangerous function call detected: " ++ func ++ " is not allowed"
  | NotASelect => "Only SELECT queries are allowed"
  | DangerousSubquery => "Query contains potentially dangerous subqueries"
  end.

Inductive Verdict : Type :=
| Accepted
| Rejected (reason : ErrorKind).

Definition dangerousKeywords : list string :=
  [ "DROP"; "DELETE"; "UPDATE"; "INSERT"; "ALTER"; "CREATE";
    "TRUNCATE"; "GRANT"; "REVOKE"; "EXEC"; "EXECUTE" ].

Definition systemTables : list string :=
  [ "pg_"; "information_schema"; "sys"; "mysql"; "performance_schema" ].

Definition dangerousFunctions : list string :=
  [ "pg_read_file"; "pg_ls_dir"; "lo_import"; "lo_export" ].

Definition dangerousPatterns : list Regex.re :=
  let pat (a b c : string) :=
    Regex.Cat (Regex.lit a)
      (Regex.Cat Regex.dotStar
         (Regex.Cat (Regex.lit b)
            (Regex.Cat Regex.dotStar (Regex.lit c)))) in
  [ pat "SELECT" "FROM" "pg_";
    pat "SELECT" "FROM" "information_schema";
    pat "SELECT" "FROM" "sys." ].

Definition containsDangerousSubquery (sql : string) : bool :=
  existsb (fun pattern => Regex.test pattern sql) dangerousPatterns.

(** [validateQuerySafety]: each [for ... if ... throw] loop stops at the
    first list element found in the normalised text. *)
Definition validateQuerySafety (sql : string) : Verdict :=
  let upperSQL := trim (toUpperCase sql) in
  match find (fun keyword => includes keyword upperSQL) dangerousKeywords with
  | Some keyword => Rejected (DangerousOperation keyword)
  | None =>
  match find (fun table => includes table upperSQL) systemTables with
  | Some table => Rejected (SystemTableAccess table)
  | None =>
  if (includes "COPY" upperSQL || includes "\COPY" upperSQL)%bool
  then Rejected FileSystemAccess
  else
  match find (fun func => includes func upperSQL) dangerousFunctions with
  | Some func => Rejected (DangerousFunction func)
  | None =>
  if negb (startsWith "SELECT" upperSQL) then Rejected NotASelect
  else if containsDangerousSubquery sql then Rejected DangerousSubquery
  else Accepted
  end end end.

End Validator.

(** ** Effects: errors, the database driver and the world *)

Module Exec.

Import Js Validator.

(** A JavaScript [Error]: its message and the optional driver [code]. *)
Record Error : Type := { message : string; code : option string }.

Definition newError (msg : string) : Error :=
  {| message := msg; code := None |}.

(** Values found in driver rows. *)
#[warnings="-register-all"]
Inductive Json : Type :=
| JUndefined
| JNull
| JNum (n : Z)
| JStr (s : string)
| JArr (items : list Json)
| JObj (props : list (string * Json)).

Record Field : Type :=
  { name : string; dataTypeID : Z; nullable : bool }.

Record QueryResult : Type :=
  { rows : list Json; fields : option (list Field); rowCount : Z }.

(** How a call completes: normally or by throwing. *)
Inductive Completion (A : Type) : Type :=
| Returned (a : A)
| Thrown (e : Error).
Arguments Returned {A} a.
Arguments Thrown {A} e.

(** What the pooled driver sees, oldest first: a client handed out by
    [connect()], a statement passed to [client.query], [client.release()]. *)
Inductive Event : Type :=
| Connect
| Query (text : string)
| Release.

(** The driver answers after [took] milliseconds. *)
Record Reply (A : Type) : Type :=
  { took : N; answer : Completion A }.
Arguments took {A} r.
Arguments answer {A} r.

(** The pool behind [db.getPrimaryDB()]: its answers may depend on all
    the traffic so far. *)
Record Driver : Type :=
  { connect : list Event -> Reply unit;
    query : list Event -> string -> Reply QueryResult }.

Record World : Type := { clock : Z; log : list Event }.

(** Computations that read the clock, talk to the driver and may throw. *)
Definition M (A : Type) : Type := World -> Completion A * World.

Definition ret {A} (a : A) : M A := fun w => (Returned a, w).

Definition throw {A} (e : Error) : M A := fun w => (Thrown e, w).

Definition bind {A B} (m : M A) (k : A -> M B) : M B :=
  fun w =>
    match m w with
    | (Returned a, w') => k a w'
    | (Thrown e, w') => (Thrown e, w')
    end.

(** [try { body } catch (error) { handler }] *)
Definition tryCatch {A} (body : M A) (handler : Error -> M A) : M A :=
  fun w =>
    match body w with
    | (Returned a, w') => (Returned a, w')
    | (Thrown e, w') => handler e w'
    end.

(** [Date.now()] *)
Definition now : M Z := fun w => (Returned (clock w), w).

Definition lift {A} (c : Completion A) : M A := fun w => (c, w).

Declare Scope js_scope.
Delimit Scope js_scope with js.
Notation "x <- m ;; k" := (bind m (fun x => k))
  (at level 61, m at next level, right associativity) : js_scope.
Notation "m ;;; k" := (bind m (fun _ => k))
  (at level 61, right associativity) : js_scope.
Local Open Scope js_scope.

(** *** Property access on driver rows *)

Fixpoint lookupProp (key : string) (props : list (string * Json)) : Json :=
  match props with
  | [] => JUndefined
  | (k, v) :: rest => if String.eqb k key then v else lookupProp key rest
  end.

Definition cannotRead (what key : string) : Error :=
  newError ("Cannot read properties of " ++ what ++ " (reading '" ++ key ++ "')").

(** [v[key]] for a string key. *)
Definition getProp (v : Json) (key : string) : Completion Json :=
  match v with
  | JUndefined => Thrown (cannotRead "undefined" key)
  | JNull => Thrown (cannotRead "null" key)
  | JObj props => Returned (lookupProp key props)
  | _ => Returned JUndefined
  end.

(** [v[0]] *)
Definition getFirst (v : Json) : Completion Json :=
  match v with
  | JUndefined => Thrown (cannotRead "undefined" "0")
  | JNull => Thrown (cannotRead "null" "0")
  | JArr items => Returned (nth 0 items JUndefined)
  | JObj props => Returned (lookupProp "0" props)
  | JStr (String c _) => Returned (JStr (String c EmptyString))
  | _ => Returned JUndefined
  end.

(** *** The service *)

Record Env : Type :=
  { MAX_RESULT_ROWS : option string;
    QUERY_TIMEOUT_MS : option string;
    SANDBOX_MODE : option string }.

Record Service : Type :=
  { primaryDB : Driver;
    maxResultRows : Z;
    queryTimeout : Z;
    sandboxMode : bool }.

Definition constructor (db : Driver) (env : Env) : Service :=
  {| primaryDB := db;
     maxResultRows := parseIntOr (MAX_RESULT_ROWS env) 10000;
     queryTimeout := parseIntOr (QUERY_TIMEOUT_MS env) 30000;
     sandboxMode :=
       match SANDBOX_MODE env with
       | Some v => String.eqb v "true"
       | None => false
       end |}.

Record Options : Type := { maxResults : option Z }.

Definition noOptions : Options := {| maxResults := None |}.

Record Column : Type :=
  { col_name : string; col_type : Z; col_nullable : bool }.

Record Metadata : Type := { executed_at : Z; sandbox_mode : bool }.

(** The object returned by [executeQuery]; [success] is the constructor. *)
Inductive ExecutionResult : Type :=
| ExecSuccess (data : list Json) (columns : list Column) (rowCount : Z)
    (executionTime : Z) (sql : string) (metadata : Metadata)
| ExecFailure (error : string) (executionTime : Z) (sql : string)
    (metadata : Metadata).

Definition success (r : ExecutionResult) : bool :=
  match r with ExecSuccess _ _ _ _ _ _ => true | ExecFailure _ _ _ _ => false end.

Definition errorOf (r : ExecutionResult) : option string :=
  match r with ExecSuccess _ _ _ _ _ _ => None | ExecFailure e _ _ _ => Some e end.

Definition executionTimeOf (r : ExecutionResult) : Z :=
  match r with ExecSuccess _ _ _ t _ _ => t | ExecFailure _ t _ _ => t end.

Definition sqlOf (r : ExecutionResult) : string :=
  match r with ExecSuccess _ _ _ _ s _ => s | ExecFailure _ _ s _ => s end.

Inductive SyntaxCheck : Type :=
| SyntaxValid (msg : string)
| SyntaxInvalid (msg : string) (error : option string).

Definition valid (c : SyntaxCheck) : bool :=
  match c with SyntaxValid _ => true | SyntaxInvalid _ _ => false end.

(** [costPerRow], a floating-point quotient, is left out. *)
Record CostEstimate : Type := { totalCost : Json; estimatedRows : Json }.

(** The promise executor of [executeWithTimeout] while it runs: time
    since the timer was armed and the driver traffic so far. *)
Record Pending : Type := { elapsed : Z; events : list Event }.

Inductive Settle (A : Type) : Type :=
| Resolve (a : A)
| Reject (e : Error)
| TimerFirst.
Arguments Resolve {A} a.
Arguments Reject {A} e.
Arguments TimerFirst {A}.

Definition emit (ev : Event) (p : Pending) : Pending :=
  {| elapsed := elapsed p; events := (events p ++ [ev])%list |}.

Section Service.

(** [format] of the sql-formatter package with the options of
    [formatSQL]; [None] when it throws. *)
Variable format : string -> option string.

Variable this : Service.

(** [await] inside the promise executor: the timer armed with
    [queryTimeout] wins when the answer comes too late, and what a
    stalled call does afterwards is no longer observed. *)
Definition await {A B} (r : Reply A) (p : Pending)
    (k : A -> Pending -> Settle B * Pending) : Settle B * Pending :=
  let t := elapsed p + Z.of_N (took r) in
  if queryTimeout this <=? t
  then (TimerFirst,
        {| elapsed := Z.max (elapsed p) (queryTimeout this); events := events p |})
  else
    match answer r with
    | Returned a => k a {| elapsed := t; events := events p |}
    | Thrown e => (Reject e, {| elapsed := t; events := events p |})
    end.

Definition setTimeoutSQL : string :=
  "SET statement_timeout = " ++ numberToString (queryTimeout this).

(** The [LIMIT] rewriting of [executeWithTimeout]. *)
Definition finalSQL (sql : string) : string :=
  if (negb (maxResultRows this =? 0) && negb (includes "LIMIT" (toUpperCase sql)))%bool
  then sql ++ " LIMIT " ++ numberToString (maxResultRows this)
  else sql.

Definition timeoutError : Error :=
  newError ("Query timeout after " ++ numberToString (queryTimeout this) ++ "ms").

Definition executor (sql : string) (p0 : Pending) : Settle QueryResult * Pending :=
  await (connect (primaryDB this) (events p0)) p0 (fun _ p1 =>
    let p1 := emit Connect p1 in
    let p2 := emit (Query setTimeoutSQL) p1 in
    await (query (primaryDB this) (events p2) setTimeoutSQL) p2 (fun _ p3 =>
      let p4 := emit (Query (finalSQL sql)) p3 in
      await (query (primaryDB this) (events p4) (finalSQL sql)) p4 (fun result p5 =>
        (Resolve result, emit Release p5)))).

Definition executeWithTimeout (sql : string) (options : Options) : M QueryResult :=
  fun w =>
    let '(s, p) := executor sql {| elapsed := 0; events := log w |} in
    let w' := {| clock := clock w + elapsed p; log := events p |} in
    match s with
    | Resolve result => (Returned result, w')
    | Reject error => (Thrown error, w')
    | TimerFirst => (Thrown timeoutError, w')
    end.

Definition formatSQL (sql : string) : string :=
  match format sql with
  | Some formatted => formatted
  | None => sql
  end.

(** [await this.validateQuerySafety(sql)] *)
Definition awaitValidateQuerySafety (sql : string) : M unit :=
  match validateQuerySafety sql with
  | Accepted => ret tt
  | Rejected reason => throw (newError (message_of reason))
  end.

Definition columnsOf (result : QueryResult) : list Column :=
  match fields result with
  | Some fs =>
      map (fun field =>
             {| col_name := name field;
                col_type := dataTypeID field;
                col_nullable := nullable field |}) fs
  | None => []
  end.

Definition executeQuery (sql : string) (options : Options) : M ExecutionResult :=
  startTime <- now ;;
  tryCatch
    (awaitValidateQuerySafety sql ;;;
     let formattedSQL := formatSQL sql in
     result <- executeWithTimeout formattedSQL options ;;
     finished <- now ;;
     let executionTime := finished - startTime in
     stamp <- now ;;
     ret (ExecSuccess (rows result) (columnsOf result) (rowCount result)
            executionTime formattedSQL
            {| executed_at := stamp; sandbox_mode := sandboxMode this |}))
    (fun error =>
       finished <- now ;;
       let executionTime := finished - startTime in
       stamp <- now ;;
       ret (ExecFailure (message error) executionTime (formatSQL sql)
              {| executed_at := stamp; sandbox_mode := sandboxMode this |})).

Definition validateSyntax (sql : string) : M SyntaxCheck :=
  tryCatch
    (let explainSQL := "EXPLAIN " ++ sql in
     executeWithTimeout explainSQL noOptions ;;;
     ret (SyntaxValid "Query syntax is valid"))
    (fun error => ret (SyntaxInvalid (message error) (code error))).

Definition estimateQueryCost (sql : string) : M CostEstimate :=
  tryCatch
    (let explainSQL := "EXPLAIN (FORMAT JSON) " ++ sql in
     result <- executeWithTimeout explainSQL noOptions ;;
     row <- lift (getProp (nth 0 (rows result) JUndefined) "QUERY PLAN") ;;
     plan <- lift (getFirst row) ;;
     total <- lift (getProp plan "Total Cost") ;;
     estimated <- lift (getProp plan "Plan Rows") ;;
     ret {| totalCost := total; estimatedRows := estimated |})
    (fun error => throw (newError ("Cost estimation failed: " ++ message error))).

Definition getExecutionPlan (sql : string) : M Json :=
  tryCatch
    (let explainSQL := "EXPLAIN (FORMAT JSON, ANALYZE, BUFFERS) " ++ sql in
     result <- executeWithTimeout explainSQL noOptions ;;
     lift (getProp (nth 0 (rows result) JUndefined) "QUERY PLAN"))
    (fun error => throw (newError ("Execution plan generation failed: " ++ message error))).

End Service.

End Exec.

(** ** Orchestration: [LLMService.generateSQL] and [NLQService.processQuery] *)

Module Pipeline.

Import Js Validator Exec.
Local Open Scope js_scope.

(** What [parseSQLResponse] reads from the provider's text: capture
    group 1 of the first of its three extraction patterns that matches
    ([None] when none does) and the explanation extracted from it. *)
Record LlmResponse : Type :=
  { sqlMatch : option string; explanationText : string }.

Record SqlResult : Type :=
  { generated : string; explanation : string; model : string }.

Definition parserKeywords : list string :=
  [ "DROP"; "DELETE"; "UPDATE"; "INSERT"; "ALTER"; "CREATE"; "TRUNCATE" ].

Definition parseSQLResponse (response : LlmResponse) : Completion SqlResult :=
  let body : Completion SqlResult :=
    match sqlMatch response with
    | None => Thrown (newError "No SQL query found in response")
    | Some captured =>
        let sql := trim captured in
        if negb (startsWith "SELECT" (toUpperCase sql))
        then Thrown (newError "Only SELECT queries are allowed")
        else
          let upperSQL := toUpperCase sql in
          match find (fun keyword => includes keyword upperSQL) parserKeywords with
          | Some keyword =>
              Thrown (newError ("Dangerous operation detected: " ++ keyword))
          | None =>
              Returned {| generated := sql;
                          explanation := explanationText response;
                          model := "gemini-pro" |}
          end
    end in
  match body with
  | Returned r => Returned r
  | Thrown error => Thrown (newError ("SQL parsing failed: " ++ message error))
  end.

Record ProcessOptions : Type :=
  { opt_language : option string;
    opt_includeExplanation : option bool;
    opt_validateBeforeExecution : option bool;
    opt_maxResults : option Z }.

Definition orDefault {A} (o : option A) (d : A) : A :=
  match o with Some a => a | None => d end.

(** The three shapes of the object returned by [processQuery]. *)
Inductive NLQResponse (SchemaItem : Type) : Type :=
| SyntaxErrors (details : SyntaxCheck) (query : string) (processingTime : Z)
| Processed (query language sql : string) (explained : option string)
    (schemaContext : list SchemaItem) (costEstimation : CostEstimate)
    (executionResult : option ExecutionResult) (processing_time : Z)
| Failed (error : string) (query : string) (processingTime : Z).
Arguments SyntaxErrors {SchemaItem}.
Arguments Processed {SchemaItem}.
Arguments Failed {SchemaItem}.

Section NLQService.

Variables Embedding SchemaItem : Type.

(** The collaborators of the orchestrator: the schema model and the
    hosted language model. They are computations of their own, which take
    time and may use the same primary pool: [ensureInitialized] stands for
    [if (!this.isInitialized) await this.initialize()], whose
    [extractSchema] reads the catalogue through [primaryDB.query]. *)
Record Collaborators : Type :=
  { ensureInitialized : M unit;
    generateEmbedding : string -> M Embedding;
    findRelevantSchema : string -> Embedding -> Z -> M (list SchemaItem);
    generateContent : string -> list SchemaItem -> string -> M LlmResponse }.

Variable format : string -> option string.
Variable queryService : Service.
Variable deps : Collaborators.

Definition generateSQL (query : string) (schemaContext : list SchemaItem)
    (language : string) : M SqlResult :=
  tryCatch
    (response <- generateContent deps query schemaContext language ;;
     lift (parseSQLResponse response))
    (fun error => throw (newError ("SQL generation failed: " ++ message error))).

Definition processQuery (query : string) (options : ProcessOptions)
    : M (NLQResponse SchemaItem) :=
  startTime <- now ;;
  tryCatch
    (ensureInitialized deps ;;;
     let language := orDefault (opt_language options) "en" in
     let includeExplanation := orDefault (opt_includeExplanation options) true in
     let validateBeforeExecution :=
       orDefault (opt_validateBeforeExecution options) true in
     let maxResults := orDefault (opt_maxResults options) 1000 in
     queryEmbedding <- generateEmbedding deps query ;;
     schemaContext <- findRelevantSchema deps query queryEmbedding 15 ;;
     sqlResult <- generateSQL query schemaContext language ;;
     syntaxValidation <- validateSyntax queryService (generated sqlResult) ;;
     if negb (valid syntaxValidation)
     then
       finished <- now ;;
       ret (SyntaxErrors syntaxValidation query (finished - startTime))
     else
       costEstimation <- estimateQueryCost queryService (generated sqlResult) ;;
       executionResult <-
         (if validateBeforeExecution
          then
            r <- executeQuery format queryService (generated sqlResult)
                   {| Exec.maxResults := Some maxResults |} ;;
            ret (Some r)
          else ret None) ;;
       finished <- now ;;
       let processingTime := finished - startTime in
       ret (Processed query language (generated sqlResult)
              (if includeExplanation then Some (explanation sqlResult) else None)
              schemaContext costEstimation executionResult processingTime))
    (fun error =>
       finished <- now ;;
       ret (Failed (message error) query (finished - startTime))).

End NLQService.

Arguments ensureInitialized {Embedding SchemaItem} c.
Arguments generateEmbedding {Embedding SchemaItem} c _.
Arguments findRelevantSchema {Embedding SchemaItem} c _ _ _.
Arguments generateContent {Embedding SchemaItem} c _ _ _.
Arguments generateSQL {Embedding SchemaItem} deps query schemaContext language.
Arguments processQuery {Embedding SchemaItem} format queryService deps query options.

End Pipeline.

(** ** Vocabulary of the specification and sample environments *)

Module Spec.

Import Js Validator Exec Pipeline.

Fixpoint hasLower (s : string) : bool :=
  match s with
  | EmptyString => false
  | String c s' => (isLower c || hasLower s')%bool
  end.

Fixpoint noWhiteSpace (s : string) : bool :=
  match s with
  | EmptyString => true
  | String c s' => (negb (isWhiteSpace c) && noWhiteSpace s')%bool
  end.

Definition nonEmpty (s : string) : bool :=
  match s with EmptyString => false | String _ _ => true end.

(** "The uppercased text contains one of the dangerous keywords as a
    substring." *)
Definition containsKeyword (sql : string) : bool :=
  existsb (fun keyword => includes keyword (toUpperCase sql)) dangerousKeywords.

(** "Starts with SELECT, case-insensitive, ignoring leading white space." *)
Definition startsWithSelect (sql : string) : bool :=
  startsWith "SELECT" (trimStart (toUpperCase sql)).

(** Steps 1 to 3 of [processQuery]: everything that runs before the
    generated SQL is first handed to the execution service. *)
Definition beforeSyntaxCheck {Embedding SchemaItem : Type}
    (deps : Collaborators Embedding SchemaItem) (query : string)
    (options : ProcessOptions) : M SqlResult :=
  (ensureInitialized deps ;;;
   queryEmbedding <- generateEmbedding deps query ;;
   schemaContext <- findRelevantSchema deps query queryEmbedding 15 ;;
   generateSQL deps query schemaContext (orDefault (opt_language options) "en"))%js.

(** The SQL that reaches step 4 of [processQuery] in the run from [w],
    when the steps before it all return. *)
Definition generatedSQL {Embedding SchemaItem : Type}
    (deps : Collaborators Embedding SchemaItem) (query : string)
    (options : ProcessOptions) (w : World) : option string :=
  match fst (beforeSyntaxCheck deps query options w) with
  | Returned sqlResult => Some (generated sqlResult)
  | Thrown _ => None
  end.

(** Steps 4 to 6 of [processQuery] as they run inside its [try] block
    once steps 1 to 3 have returned [schemaContext] and [sqlResult]. *)
Definition afterGeneration {SchemaItem : Type} (format : string -> option string)
    (queryService : Service) (query : string) (options : ProcessOptions)
    (startTime : Z) (schemaContext : list SchemaItem) (sqlResult : SqlResult)
    : M (NLQResponse SchemaItem) :=
  tryCatch
    (bind (validateSyntax queryService (generated sqlResult)) (fun syntaxValidation =>
     if negb (valid syntaxValidation)
     then
       bind now (fun finished =>
       ret (SyntaxErrors syntaxValidation query (finished - startTime)))
     else
       bind (estimateQueryCost queryService (generated sqlResult)) (fun costEstimation =>
       bind (if orDefault (opt_validateBeforeExecution options) true
             then
               bind (executeQuery format queryService (generated sqlResult)
                       {| Exec.maxResults :=
                            Some (orDefault (opt_maxResults options) 1000) |})
                 (fun r => ret (Some r))
             else ret None) (fun executionResult =>
       bind now (fun finished =>
       ret (Processed query (orDefault (opt_language options) "en")
              (generated sqlResult)
              (if orDefault (opt_includeExplanation options) true
               then Some (explanation sqlResult) else None)
              schemaContext costEstimation executionResult
              (finished - startTime)))))))
    (fun error =>
       bind now (fun finished =>
       ret (Failed (message error) query (finished - startTime)))).

(** "The first dangerous keyword, in the order of the list, that the
    upper-cased text contains." *)
Definition firstKeyword (sql : string) : option string :=
  find (fun keyword => includes keyword (toUpperCase sql)) dangerousKeywords.

(** "Contains the characters LIMIT anywhere, in any case." *)
Definition mentionsLimit (sql : string) : bool :=
  includes "LIMIT" (toUpperCase sql).

(** Connections handed out and not yet given back. *)
Fixpoint heldConnections (evs : list Event) : Z :=
  match evs with
  | [] => 0
  | Connect :: rest => 1 + heldConnections rest
  | Release :: rest => heldConnections rest - 1
  | Query _ :: rest => heldConnections rest
  end.

Definition isQuery (text : string) (ev : Event) : bool :=
  match ev with Query t => String.eqb t text | _ => false end.

(** The statements sent to the engine, oldest first. *)
Fixpoint statements (evs : list Event) : list string :=
  match evs with
  | [] => []
  | Query t :: rest => t :: statements rest
  | _ :: rest => statements rest
  end.

(** Running [m] only adds to the driver traffic, never moves the clock
    backwards, and every statement it sends satisfies [allowed]. *)
Definition sends {A} (allowed : string -> Prop) (m : M A) : Prop :=
  forall w, exists evs,
    log (snd (m w)) = (log w ++ evs)%list /\
    clock w <= clock (snd (m w)) /\
    Forall allowed (statements evs).

(** [a] is a value [m] can return. *)
Definition yields {A} (m : M A) (a : A) : Prop :=
  exists w w', m w = (Returned a, w').

End Spec.

Module Samples.

Import Js Validator Exec Pipeline.

Definition nl : string := String (ascii_of_nat 10) EmptyString.

Definition noEnv : Env :=
  {| MAX_RESULT_ROWS := None; QUERY_TIMEOUT_MS := None; SANDBOX_MODE := None |}.

Definition planRow : Json :=
  JObj [("QUERY PLAN",
         JArr [JObj [("Total Cost", JNum 25); ("Plan Rows", JNum 100)]])].

Definition planResult : QueryResult :=
  {| rows := [planRow]; fields := Some []; rowCount := 1 |}.

Definition quick {A} (c : Completion A) : Reply A :=
  {| took := 5%N; answer := c |}.

(** Every call succeeds, like [mockResolvedValue]. *)
Definition obligingDriver : Driver :=
  {| connect := fun _ => quick (Returned tt);
     query := fun _ _ => quick (Returned planResult) |}.

(** The timeout setting succeeds, every other statement is refused. *)
Definition missingTableDriver : Driver :=
  {| connect := fun _ => quick (Returned tt);
     query := fun _ text =>
       if startsWith "SET " text then quick (Returned planResult)
       else quick (Thrown (newError "Table does not exist")) |}.

(** Statements other than the timeout setting answer after a minute. *)
Definition stalledDriver : Driver :=
  {| connect := fun _ => quick (Returned tt);
     query := fun _ text =>
       if startsWith "SET " text then quick (Returned planResult)
       else {| took := 60000%N; answer := Returned planResult |} |}.

(** A formatter that leaves the text alone. *)
Definition verbatim (sql : string) : option string := Some sql.

(** A formatter that always throws. *)
Definition brokenFormat (sql : string) : option string := None.

(** Two entries of sql-formatter's behaviour under the options of
    [formatSQL] (keywords in upper case, as the suite's "should format SQL
    query" expects, one clause per line, two-space indentation); it throws
    elsewhere. *)
Definition sampleFormat (sql : string) : option string :=
  if String.eqb sql "select id from customers"
  then Some ("SELECT" ++ nl ++ "  id" ++ nl ++ "FROM" ++ nl ++ "  customers")
  else if String.eqb sql "SELECT * FROM customers"
  then Some ("SELECT" ++ nl ++ "  *" ++ nl ++ "FROM" ++ nl ++ "  customers")
  else None.

(** The collaborators of a service that is already initialised: they all
    answer, without a call on the primary pool, the language model with
    [sql] in a fenced block. *)
Definition answering (sql : string) : Collaborators unit unit :=
  {| ensureInitialized := ret tt;
     generateEmbedding := fun _ => ret tt;
     findRelevantSchema := fun _ _ _ => ret [];
     generateContent := fun _ _ _ =>
       ret {| sqlMatch := Some sql; explanationText := "" |} |}.

Definition defaults : ProcessOptions :=
  {| opt_language := None; opt_includeExplanation := None;
     opt_validateBeforeExecution := None; opt_maxResults := None |}.

Definition startOfDay : World := {| clock := 1000; log := [] |}.

End Samples.

(** ** Further string primitives *)

Module Text.

Definition isUpper (c : ascii) : bool :=
  let n := nat_of_ascii c in (Nat.leb 65 n && Nat.leb n 90)%bool.

Definition lowerChar (c : ascii) : ascii :=
  if isUpper c then ascii_of_nat (nat_of_ascii c + 32) else c.

(** [String.prototype.toLowerCase] *)
Fixpoint toLowerCase (s : string) : string :=
  match s with
  | EmptyString => EmptyString
  | String c s' => String (lowerChar c) (toLowerCase s')
  end.

(** [s.replace(/[...]/g, '')] for a character class. *)
Fixpoint removeAll (inClass : ascii -> bool) (s : string) : string :=
  match s with
  | EmptyString => EmptyString
  | String c s' =>
      if inClass c then removeAll inClass s' else String c (removeAll inClass s')
  end.

Fixpoint firstChars (n : nat) (s : string) : string :=
  match n, s with
  | O, _ | _, EmptyString => EmptyString
  | S n', String c s' => String c (firstChars n' s')
  end.

(** [s.substring(0, n)]: a negative bound counts as 0. *)
Definition substringFromStart (s : string) (n : Z) : string :=
  firstChars (Z.to_nat n) s.

(** [s.length] *)
Definition lengthOf (s : string) : Z := Z.of_nat (String.length s).

(** Every character of [s] is below U+0080. *)
Fixpoint isAscii (s : string) : bool :=
  match s with
  | EmptyString => true
  | String c s' => (Nat.ltb (nat_of_ascii c) 128 && isAscii s')%bool
  end.

Fixpoint occurs (c : ascii) (s : string) : bool :=
  match s with
  | EmptyString => false
  | String b s' => (Ascii.eqb c b || occurs c s')%bool
  end.

End Text.

(** ** [ValidationService]: validation of dashboard request parameters

    A parameter that is [undefined], [null] or not a string is [None]. *)

Module ValidationService.

Import Js Text.

Definition validateLimit (limit : option string) (maxLimit defaultLimit : Z) : Z :=
  let parsedLimit :=
    match limit with
    | Some text => parseInt text
    | None => None
    end in
  match parsedLimit with
  | None => defaultLimit
  | Some n =>
      if n <=? 0 then defaultLimit
      else if maxLimit <? n then maxLimit
      else n
  end.

(** Dates are their [getTime()] in milliseconds; [None] is an invalid date. *)
Record DateRange : Type :=
  { startDate : Z; endDate : Z; isValid : bool }.

Definition thirtyDays : Z := 30 * 24 * 60 * 60 * 1000.

Definition validateDateRange (start finish : option Z) (now : Z) : DateRange :=
  match start, finish with
  | Some s, Some e =>
      if e <? s
      then {| startDate := e; endDate := s; isValid := true |}
      else
        {| startDate := if now <? s then now else s;
           endDate := if now <? e then now else e;
           isValid := true |}
  | _, _ =>
      {| startDate := now - thirtyDays; endDate := now; isValid := false |}
  end.

(** [value || null] for a string found by [Array.prototype.find]. *)
Definition orNull (found : option string) : option string :=
  match found with
  | Some EmptyString | None => None
  | Some v => Some v
  end.

Definition validateCategory (category : option string)
    (validCategories : list string) : option string :=
  match category with
  | None | Some EmptyString => None
  | Some text =>
      let normalizedCategory := trim (toLowerCase text) in
      orNull (find (fun cat => String.eqb (toLowerCase cat) normalizedCategory)
                validCategories)
  end.

Definition defaultStatuses : list string :=
  [ "delivered"; "shipped"; "completed"; "processing"; "cancelled"; "returned" ].

Definition validateStatus (status : option string)
    (validStatuses : list string) : option string :=
  match status with
  | None | Some EmptyString => None
  | Some text =>
      let normalizedStatus := trim (toLowerCase text) in
      orNull (find (fun s => String.eqb (toLowerCase s) normalizedStatus)
                validStatuses)
  end.

Definition isAngle (c : ascii) : bool :=
  (Ascii.eqb c "<" || Ascii.eqb c ">")%bool.

Definition doubleQuote : ascii := ascii_of_nat 34.

Definition isQuote (c : ascii) : bool :=
  (Ascii.eqb c "'" || Ascii.eqb c doubleQuote)%bool.

Definition sanitizeString (input : option string) (maxLength : Z) : string :=
  match input with
  | None => EmptyString
  | Some text =>
      let sanitized := trim (removeAll isQuote (removeAll isAngle text)) in
      if maxLength <? lengthOf sanitized
      then substringFromStart sanitized maxLength
      else sanitized
  end.

Record QueryParams : Type :=
  { q_limit : option string;
    q_category : option string;
    q_status : option string;
    q_search : option string;
    q_sortBy : option string;
    q_sortOrder : option string }.

Record ValidatedParams : Type :=
  { v_limit : Z;
    v_category : option string;
    v_status : option string;
    v_search : string;
    v_sortBy : string;
    v_sortOrder : string }.

(** The defaults of the signatures apply where an argument is left out. *)
Definition validateQueryParams (query : QueryParams) : ValidatedParams :=
  {| v_limit := validateLimit (q_limit query) 100 5;
     v_category := validateCategory (q_category query) [];
     v_status := validateStatus (q_status query) defaultStatuses;
     v_search := sanitizeString (q_search query) 100;
     v_sortBy := sanitizeString (q_sortBy query) 50;
     v_sortOrder :=
       match q_sortOrder query with
       | Some order => if String.eqb order "desc" then "desc" else "asc"
       | None => "asc"
       end |}.

End ValidationService.

(** ** JavaScript objects, as far as [NLQService.executeSQL] builds them *)

Module Obj.

Import Exec.

#[warnings="-register-all"]
Inductive Val : Type :=
| VUndefined
| VBool (b : bool)
| VNum (n : Z)
| VStr (s : string)
| VRows (rows : list Json)
| VColumns (columns : list Column)
| VObj (props : list (string * Val)).

Definition Object : Type := list (string * Val).

(** [o[key]] *)
Fixpoint get (key : string) (o : Object) : Val :=
  match o with
  | [] => VUndefined
  | (k, v) :: rest => if String.eqb k key then v else get key rest
  end.

(** [o[key] = v]: an existing property keeps its place. *)
Fixpoint set (key : string) (v : Val) (o : Object) : Object :=
  match o with
  | [] => [(key, v)]
  | (k, old) :: rest =>
      if String.eqb k key then (k, v) :: rest else (k, old) :: set key v rest
  end.

(** [{ ...target, ...source }]: the properties of [source] are written in
    order over [target]. *)
Definition spread (source target : Object) : Object :=
  fold_left (fun o kv => set (fst kv) (snd kv) o) source target.

Definition metadataObject (m : Metadata) : Val :=
  VObj [("executed_at", VNum (executed_at m)); ("sandbox_mode", VBool (sandbox_mode m))].

(** The object literal returned by [executeQuery]. *)
Definition objectOf (r : ExecutionResult) : Object :=
  match r with
  | ExecSuccess data columns rowCount executionTime sql metadata =>
      [ ("success", VBool true); ("data", VRows data); ("columns", VColumns columns);
        ("rowCount", VNum rowCount); ("executionTime", VNum executionTime);
        ("sql", VStr sql); ("metadata", metadataObject metadata) ]
  | ExecFailure error executionTime sql metadata =>
      [ ("success", VBool false); ("error", VStr error);
        ("executionTime", VNum executionTime); ("sql", VStr sql);
        ("metadata", metadataObject metadata) ]
  end.

End Obj.

(** ** [NLQService]: the operations beside [processQuery] *)

Module NLQService.

Import Js Text Validator Exec Pipeline Obj.
Local Open Scope js_scope.

Definition suggestions : list string :=
  [ "Show me the top 10 customers by loan amount";
    "What is the total revenue for last month?";
    "Which branch has the highest number of loans?";
    "Show me customers who haven't made payments in 30 days";
    "What is the average loan amount by region?";
    "Show me the loan disbursement trend over the last 6 months";
    "Which products are most popular this quarter?";
    "Show me customers with overdue payments";
    "What is the loan approval rate by branch?";
    "Show me the monthly loan disbursement summary" ].

Inductive SuggestionsResponse : Type :=
| Suggested (items : list string) (generated_at : Z)
| NotSuggested (error : string).

Definition suggestedItems (r : SuggestionsResponse) : list string :=
  match r with Suggested items _ => items | NotSuggested _ => [] end.

Section Service.

Variables Embedding SchemaItem : Type.
Variable format : string -> option string.
Variable queryService : Service.
Variable deps : Collaborators Embedding SchemaItem.

Definition executeSQL (sql : string) (options : ProcessOptions) : M Object :=
  tryCatch
    (let maxResults := orDefault (opt_maxResults options) 1000 in
     result <- executeQuery format queryService sql
                 {| Exec.maxResults := Some maxResults |} ;;
     stamp <- now ;;
     ret (set "metadata" (VObj [("executed_at", VNum stamp)])
            (spread (objectOf result)
               [("success", VBool true); ("sql", VStr sql)])))
    (fun error =>
       ret [("success", VBool false); ("error", VStr (message error));
            ("sql", VStr sql)]).

Definition getQuerySuggestions (partialQuery : string) : M SuggestionsResponse :=
  tryCatch
    (ensureInitialized deps ;;;
     let filteredSuggestions :=
       filter (fun suggestion =>
                 includes (toLowerCase partialQuery) (toLowerCase suggestion))
         suggestions in
     stamp <- now ;;
     ret (Suggested (firstn 5 filteredSuggestions) stamp))
    (fun error => ret (NotSuggested (message error))).

End Service.

Arguments getQuerySuggestions {Embedding SchemaItem} deps partialQuery.

End NLQService.

(** ** The LangChain-based service: steps 4 and 5 and its [processQuery] *)

Module AdvancedNLQ.

Import Js Text Exec.
Local Open Scope js_scope.

Definition dangerousKeywords : list string :=
  [ "drop"; "delete"; "insert"; "update"; "alter"; "truncate" ].

Definition allowedFunctions : list string :=
  [ "current_date"; "current_timestamp"; "now()"; "date_trunc" ].

(** [pool.query(text)]: the pool runs one statement on a client of its
    own, without arming a timer. *)
Definition poolQuery (db : Driver) (text : string) : M QueryResult :=
  fun w =>
    let sent := (log w ++ [Query text])%list in
    let r := query db sent text in
    (answer r, {| clock := clock w + Z.of_N (took r); log := sent |}).

(** The lexical checks of [validateSQL], before the engine is asked. *)
Definition lexicalChecks (sql : string) : Completion unit :=
  let trimmedSQL := toLowerCase (trim sql) in
  if negb (startsWith "select" trimmedSQL)
  then Thrown (newError "Only SELECT queries are allowed")
  else
    match
      find (fun keyword =>
              includes keyword trimmedSQL &&
              negb (existsb (fun func =>
                               includes func trimmedSQL && includes keyword trimmedSQL)
                      allowedFunctions))%bool
        dangerousKeywords
    with
    | Some keyword =>
        Thrown (newError ("Dangerous operation '" ++ keyword ++ "' is not allowed"))
    | None => Returned tt
    end.

Record QueryOutcome : Type :=
  { data : list Json; columnNames : list string; rowTotal : Z }.

(** Steps 1 to 3 as one source of SQL text, the one cleaned at the end of
    [generateSQLWithLangChain]. They are computations of their own: the
    initialisation and the schema look-ups of step 2 use the same primary
    pool. *)
Record Sources : Type :=
  { ensureInitialized : M unit;
    generateSQLWithLangChain : string -> M string }.

Inductive Response : Type :=
| Answered (query generatedSQL : string) (result : QueryOutcome) (processingTime : Z)
| Unanswered (query error : string) (processingTime : Z).

Section Service.

Variable primaryDB : Driver.
Variable sources : Sources.

Definition validateSQL (sql : string) : M bool :=
  tryCatch
    (lift (lexicalChecks sql) ;;;
     tryCatch
       (poolQuery primaryDB ("EXPLAIN " ++ sql) ;;; ret true)
       (fun syntaxError =>
          throw (newError ("SQL syntax error: " ++ message syntaxError))))
    (fun error => throw error).

Definition executeSQL (sql : string) : M QueryOutcome :=
  tryCatch
    (result <- poolQuery primaryDB sql ;;
     ret {| data := rows result;
            columnNames :=
              match fields result with
              | Some fs => map name fs
              | None => []
              end;
            rowTotal := Z.of_nat (List.length (rows result)) |})
    (fun error => throw error).

Definition processQuery (query : string) : M Response :=
  startTime <- now ;;
  tryCatch
    (ensureInitialized sources ;;;
     generatedSQL <- generateSQLWithLangChain sources query ;;
     validateSQL generatedSQL ;;;
     queryResult <- executeSQL generatedSQL ;;
     finished <- now ;;
     ret (Answered query generatedSQL queryResult (finished - startTime)))
    (fun error =>
       finished <- now ;;
       ret (Unanswered query (message error) (finished - startTime))).

End Service.

End AdvancedNLQ.

(** ** Vocabulary for the further properties *)

Module Further.

Import Js Text Validator Exec Samples.

(** The driver hands out a client and accepts the timeout setting before
    the timer of [executeWithTimeout] fires. *)
Definition reachesStatement (this : Service) (w : World) : bool :=
  let first := connect (primaryDB this) (log w) in
  let second :=
    query (primaryDB this)
      (log w ++ [Connect; Query (setTimeoutSQL this)])%list (setTimeoutSQL this) in
  match answer first, answer second with
  | Returned _, Returned _ =>
      Z.of_N (took first) + Z.of_N (took second) <? queryTimeout this
  | _, _ => false
  end.

Definition startsWithText (prefix text : string) : Prop :=
  exists rest, text = prefix ++ rest.

(** Steps 1 to 3 of the LangChain-based [processQuery]. *)
Definition sqlSource (sources : AdvancedNLQ.Sources) (question : string) : M string :=
  bind (AdvancedNLQ.ensureInitialized sources)
    (fun _ => AdvancedNLQ.generateSQLWithLangChain sources question).

(** The statement of [SchemaModel.extractSchema]. *)
Definition extractSchemaQuery : string :=
  nl ++
  "        SELECT " ++
  nl ++
  "          t.table_name," ++
  nl ++
  "          c.column_name," ++
  nl ++
  "          c.data_type," ++
  nl ++
  "          c.is_nullable," ++
  nl ++
  "          c.column_default," ++
  nl ++
  "          COALESCE(pgd.description, '') as description" ++
  nl ++
  "        FROM information_schema.tables t" ++
  nl ++
  "        JOIN information_schema.columns c ON t.table_name = c.table_name AND t.table_schema = c.table_schema" ++
  nl ++
  "        LEFT JOIN pg_class pgc ON pgc.relname = t.table_name" ++
  nl ++
  "        LEFT JOIN pg_namespace pgn ON pgn.oid = pgc.relnamespace AND pgn.nspname = t.table_schema" ++
  nl ++
  "        LEFT JOIN pg_description pgd ON pgd.objoid = pgc.oid AND pgd.objsubid = c.ordinal_position" ++
  nl ++
  "        WHERE t.table_schema = $1" ++
  nl ++
  "        AND t.table_type = 'BASE TABLE'" ++
  nl ++
  "        ORDER BY t.table_name, c.ordinal_position;" ++
  nl ++
  "      ".

(** The collaborators of a service on its first request: [initialize]
    reads the catalogue through the primary pool (what it sends to the
    vector store, a pool of its own, is not recorded in the log); the rest
    answers as in [answering]. *)
Definition freshlyStarted (db : Driver) (sql : string)
    : Pipeline.Collaborators unit unit :=
  {| Pipeline.ensureInitialized :=
       bind (AdvancedNLQ.poolQuery db extractSchemaQuery) (fun _ => ret tt);
     Pipeline.generateEmbedding := fun _ => ret tt;
     Pipeline.findRelevantSchema := fun _ _ _ => ret [];
     Pipeline.generateContent := fun _ _ _ =>
       ret {| Pipeline.sqlMatch := Some sql; Pipeline.explanationText := "" |} |}.

(** A driver that answers every statement with an empty result. *)
Definition silentDriver : Driver :=
  {| connect := fun _ => {| took := 2%N; answer := Returned tt |};
     query := fun _ _ =>
       {| took := 3%N;
          answer := Returned {| rows := []; fields := None; rowCount := 0 |} |} |}.

End Further.

Import Js Validator Exec Pipeline Spec Samples.
Import Text Further.

(** ** Facts about the string primitives *)

Lemma upperChar_not_lower (c : ascii) : isLower (upperChar c) = false.
Proof.
  destruct c as [[] [] [] [] [] [] [] []]; reflexivity.
Qed.

Lemma toUpperCase_no_lower (s : string) : hasLower (toUpperCase s) = false.
Proof.
  induction s as [|c s IH]; simpl; [reflexivity|].
  now rewrite upperChar_not_lower, IH.
Qed.

Lemma trimStart_no_lower (s : string) :
  hasLower s = false -> hasLower (trimStart s) = false.
Proof.
  induction s as [|c s IH]; simpl; [trivial|].
  intros H. apply orb_false_iff in H as [Hc Hs].
  destruct (isWhiteSpace c); [auto|].
  simpl. now rewrite Hc, Hs.
Qed.

Lemma trimEnd_cons (c : ascii) (s : string) :
  trimEnd (String c s) =
  if (isWhiteSpace c && negb (nonEmpty (trimEnd s)))%bool
  then EmptyString else String c (trimEnd s).
Proof.
  simpl. destruct (trimEnd s); simpl.
  - now destruct (isWhiteSpace c).
  - now rewrite andb_false_r.
Qed.

Lemma trimEnd_no_lower (s : string) :
  hasLower s = false -> hasLower (trimEnd s) = false.
Proof.
  induction s as [|c s IH]; [trivial|].
  intros H. simpl in H. apply orb_false_iff in H as [Hc Hs].
  rewrite trimEnd_cons.
  destruct (isWhiteSpace c && negb (nonEmpty (trimEnd s)))%bool; [reflexivity|].
  simpl. now rewrite Hc, IH.
Qed.

Lemma startsWith_lower (p s : string) :
  startsWith p s = true -> hasLower p = true -> hasLower s = true.
Proof.
  revert s; induction p as [|a p IH]; intros [|b s]; simpl; try discriminate.
  intros H Hp. apply andb_true_iff in H as [Hab Hps].
  apply Ascii.eqb_eq in Hab; subst b.
  apply orb_true_iff in Hp as [Ha|Hp'].
  - now rewrite Ha.
  - rewrite (IH s Hps Hp'). apply orb_true_r.
Qed.

Lemma includes_lower (p s : string) :
  includes p s = true -> hasLower p = true -> hasLower s = true.
Proof.
  induction s as [|b s IH]; intros H Hp.
  - simpl in H. exact (startsWith_lower _ _ H Hp).
  - cbn [includes] in H. apply orb_true_iff in H as [H|H].
    + exact (startsWith_lower _ _ H Hp).
    + simpl. rewrite (IH H Hp). apply orb_true_r.
Qed.

(** A pattern with a lower-case letter never occurs in the normalised text. *)
Lemma lower_pattern_never_included (p sql : string) :
  hasLower p = true -> includes p (trim (toUpperCase sql)) = false.
Proof.
  intros Hp. destruct (includes p (trim (toUpperCase sql))) eqn:E; [|reflexivity].
  pose proof (includes_lower _ _ E Hp) as H.
  unfold trim in H.
  rewrite trimEnd_no_lower in H; [discriminate|].
  apply trimStart_no_lower, toUpperCase_no_lower.
Qed.

Lemma find_lower_patterns (l : list string) (sql : string) :
  forallb hasLower l = true ->
  find (fun p => includes p (trim (toUpperCase sql))) l = None.
Proof.
  induction l as [|p l IH]; simpl; [reflexivity|].
  intros H. apply andb_true_iff in H as [Hp Hl].
  now rewrite lower_pattern_never_included, IH.
Qed.

Lemma startsWith_first_mismatch (a c : ascii) (p s : string) :
  isWhiteSpace a = false -> isWhiteSpace c = true ->
  startsWith (String a p) (String c s) = false.
Proof.
  intros Ha Hc. simpl. destruct (Ascii.eqb_spec a c); [congruence|reflexivity].
Qed.

Lemma startsWith_trimEnd (p s : string) :
  noWhiteSpace p = true -> startsWith p (trimEnd s) = startsWith p s.
Proof.
  revert p; induction s as [|c s IH]; intros p Hp; [reflexivity|].
  destruct p as [|a p]; [reflexivity|].
  simpl in Hp. apply andb_true_iff in Hp as [Ha Hp].
  apply negb_true_iff in Ha.
  rewrite trimEnd_cons.
  destruct (isWhiteSpace c) eqn:Hc; simpl andb.
  - rewrite (startsWith_first_mismatch a c p s Ha Hc).
    destruct (negb (nonEmpty (trimEnd s))); [reflexivity|].
    now apply startsWith_first_mismatch.
  - cbn [startsWith]. now rewrite IH.
Qed.

Lemma includes_trimEnd (p s : string) :
  noWhiteSpace p = true -> nonEmpty p = true ->
  includes p (trimEnd s) = includes p s.
Proof.
  intros Hp Hne. induction s as [|c s IH]; [reflexivity|].
  cbn [includes]. rewrite <- (startsWith_trimEnd p (String c s) Hp), <- IH.
  rewrite trimEnd_cons.
  destruct (isWhiteSpace c && negb (nonEmpty (trimEnd s)))%bool eqn:E.
  - apply andb_true_iff in E as [_ E]. apply negb_true_iff in E.
    destruct (trimEnd s); [|discriminate].
    destruct p; [discriminate|reflexivity].
  - reflexivity.
Qed.

Lemma includes_trimStart (p s : string) :
  noWhiteSpace p = true -> nonEmpty p = true ->
  includes p (trimStart s) = includes p s.
Proof.
  intros Hp Hne. induction s as [|c s IH]; [reflexivity|].
  cbn [trimStart]. destruct (isWhiteSpace c) eqn:Hc; [|reflexivity].
  rewrite IH. cbn [includes].
  destruct p as [|a p]; [discriminate|].
  simpl in Hp. apply andb_true_iff in Hp as [Ha _]. apply negb_true_iff in Ha.
  now rewrite startsWith_first_mismatch.
Qed.

(** Trimming does not hide or create an occurrence of a word. *)
Lemma includes_trim (p s : string) :
  noWhiteSpace p = true -> nonEmpty p = true ->
  includes p (trim s) = includes p s.
Proof.
  intros Hp Hne. unfold trim.
  now rewrite includes_trimEnd, includes_trimStart.
Qed.

Lemma includes_startsWith (p s : string) :
  startsWith p s = true -> includes p s = true.
Proof.
  destruct s; simpl; intros H; [assumption|].
  simpl in H. now rewrite H.
Qed.

Lemma includes_drop_first (c : ascii) (p s : string) :
  includes (String c p) s = true -> includes p s = true.
Proof.
  induction s as [|b s IH]; [discriminate|].
  cbn [includes startsWith]. intros H.
  apply orb_true_iff in H as [H|H].
  - apply andb_true_iff in H as [_ H].
    rewrite (includes_startsWith _ _ H). apply orb_true_r.
  - rewrite (IH H). apply orb_true_r.
Qed.

(** ** The validator *)

Lemma keywords_are_words :
  forallb (fun k => noWhiteSpace k && nonEmpty k)%bool dangerousKeywords = true.
Proof. reflexivity. Qed.

Lemma keyword_includes_trim (keyword s : string) :
  In keyword dangerousKeywords ->
  includes keyword (trim s) = includes keyword s.
Proof.
  intros Hin.
  pose proof (proj1 (forallb_forall _ _) keywords_are_words keyword Hin) as H.
  apply andb_true_iff in H as [Hw Hn].
  now apply includes_trim.
Qed.

(** The two loops over lower-case patterns never throw, so the validator
    is the cascade of its four remaining checks. *)
Lemma validateQuerySafety_cascade (sql : string) :
  validateQuerySafety sql =
  match find (fun keyword => includes keyword (trim (toUpperCase sql)))
          dangerousKeywords with
  | Some keyword => Rejected (DangerousOperation keyword)
  | None =>
      if (includes "COPY" (trim (toUpperCase sql))
          || includes "\COPY" (trim (toUpperCase sql)))%bool
      then Rejected FileSystemAccess
      else if negb (startsWith "SELECT" (trim (toUpperCase sql)))
      then Rejected NotASelect
      else if containsDangerousSubquery sql then Rejected DangerousSubquery
      else Accepted
  end.
Proof.
  unfold validateQuerySafety. cbv zeta.
  rewrite (find_lower_patterns systemTables sql eq_refl).
  rewrite (find_lower_patterns dangerousFunctions sql eq_refl).
  reflexivity.
Qed.

Lemma keyword_found (sql : string) :
  containsKeyword sql = true ->
  exists k, In k dangerousKeywords /\
    find (fun keyword => includes keyword (trim (toUpperCase sql)))
      dangerousKeywords = Some k.
Proof.
  intros H. apply existsb_exists in H as (kw & Hin & Hkw).
  destruct (find _ dangerousKeywords) as [k|] eqn:E.
  - exists k. split; [|reflexivity]. exact (proj1 (find_some _ _ E)).
  - pose proof (find_none _ _ E kw Hin) as Hn. cbv beta in Hn.
    rewrite keyword_includes_trim in Hn by assumption. congruence.
Qed.

Lemma keyword_not_found (sql : string) :
  containsKeyword sql = false ->
  find (fun keyword => includes keyword (trim (toUpperCase sql)))
    dangerousKeywords = None.
Proof.
  intros H. destruct (find _ dangerousKeywords) as [k|] eqn:E; [|reflexivity].
  apply find_some in E as [Hin Hk]. cbv beta in Hk.
  rewrite keyword_includes_trim in Hk by assumption.
  assert (containsKeyword sql = true) by (apply existsb_exists; eauto).
  congruence.
Qed.

Lemma select_prefix_trim (sql : string) :
  startsWith "SELECT" (trim (toUpperCase sql)) = startsWithSelect sql.
Proof.
  unfold trim, startsWithSelect. now rewrite startsWith_trimEnd.
Qed.

(** The sub-query patterns ignore case and do not look across a line
    break, [.] matching no line terminator. *)
Lemma subquery_patterns_examples :
  containsDangerousSubquery "select * from PG_catalog.pg_class" = true
  /\ containsDangerousSubquery "SELECT name FROM customers" = false
  /\ containsDangerousSubquery "SELECT sys.version" = false
  /\ containsDangerousSubquery ("SELECT *" ++ nl ++ "FROM pg_user") = false.
Proof. repeat split; vm_compute; reflexivity. Qed.

(** C1 (the code departs from the claim): the loop over
    [dangerousFunctions] compares lower-case names with the upper-cased
    text, so no input is ever rejected as a dangerous function call, and the
    four functions named by the specification pass the validator. *)
Theorem dangerous_function_calls_are_accepted :
  (forall sql func, validateQuerySafety sql <> Rejected (DangerousFunction func))
  /\ validateQuerySafety "SELECT pg_read_file('/etc/passwd')" = Accepted
  /\ validateQuerySafety "SELECT pg_ls_dir('/')" = Accepted
  /\ validateQuerySafety "SELECT lo_import('/etc/passwd')" = Accepted
  /\ validateQuerySafety "SELECT lo_export(16384, '/tmp/out')" = Accepted.
Proof.
  split.
  - intros sql func. rewrite validateQuerySafety_cascade.
    repeat match goal with
           | |- context [match ?x with _ => _ end] => destruct x
           end; discriminate.
  - repeat split; vm_compute; reflexivity.
Qed.

(** C2 (the code departs from the claim): the loop over [systemTables]
    is dead for the same reason; a statement naming a catalog is rejected
    only when the sub-query patterns see [SELECT ... FROM ...] before it,
    and then as [DangerousSubquery]. *)
Theorem system_table_check_never_fires :
  (forall sql table, validateQuerySafety sql <> Rejected (SystemTableAccess table))
  /\ validateQuerySafety "SELECT * FROM pg_user" = Rejected DangerousSubquery
  /\ validateQuerySafety "SELECT pg_backend_pid()" = Accepted
  /\ validateQuerySafety "SELECT sys.version" = Accepted
  /\ validateQuerySafety "SELECT information_schema._pg_char_max_length(1, 1)" = Accepted.
Proof.
  split.
  - intros sql table. rewrite validateQuerySafety_cascade.
    repeat match goal with
           | |- context [match ?x with _ => _ end] => destruct x
           end; discriminate.
  - repeat split; vm_compute; reflexivity.
Qed.

(** C6, as stated, fails: a statement that does not start with SELECT and
    holds a dangerous keyword is reported as [DangerousOperation]. *)
Lemma drop_table_is_not_reported_as_NotASelect :
  startsWithSelect "DROP TABLE customers" = false
  /\ validateQuerySafety "DROP TABLE customers" = Rejected (DangerousOperation "DROP")
  /\ startsWithSelect "COPY customers TO '/tmp/data.csv'" = false
  /\ validateQuerySafety "COPY customers TO '/tmp/data.csv'" = Rejected FileSystemAccess.
Proof. repeat split; vm_compute; reflexivity. Qed.

Lemma copy_test_is_one_test (u : string) :
  (includes "COPY" u || includes "\COPY" u)%bool = includes "COPY" u.
Proof.
  destruct (includes "COPY" u) eqn:E; [reflexivity|].
  destruct (includes "\COPY" u) eqn:E'; [|reflexivity].
  apply includes_drop_first in E'. congruence.
Qed.

Lemma firstKeyword_trim (sql : string) :
  find (fun keyword => includes keyword (trim (toUpperCase sql))) dangerousKeywords
  = firstKeyword sql.
Proof.
  unfold firstKeyword, dangerousKeywords. cbn [find].
  now rewrite !(includes_trim _ (toUpperCase sql)) by reflexivity.
Qed.

Lemma firstKeyword_None (sql : string) :
  firstKeyword sql = None <-> containsKeyword sql = false.
Proof.
  rewrite <- firstKeyword_trim. split.
  - intros H. destruct (containsKeyword sql) eqn:K; [|reflexivity].
    destruct (keyword_found sql K) as (k & _ & Hk). congruence.
  - apply keyword_not_found.
Qed.

(** C6, amended: a statement that does not start with SELECT (in any
    case, leading white space ignored) is always rejected, with the reason
    of the first check that fires: [DangerousOperation], naming the first
    keyword of the list that occurs, when the upper-cased text holds a
    dangerous keyword; else [FileSystemAccess] when it holds COPY; else
    [NotASelect]. *)
Theorem non_select_is_rejected (sql : string) :
  startsWithSelect sql = false ->
  validateQuerySafety sql
  = match firstKeyword sql with
    | Some keyword => Rejected (DangerousOperation keyword)
    | None =>
        if includes "COPY" (toUpperCase sql)
        then Rejected FileSystemAccess
        else Rejected NotASelect
    end
  /\ (containsKeyword sql = true ->
      exists k,
        firstKeyword sql = Some k /\
        In k dangerousKeywords /\
        includes k (toUpperCase sql) = true /\
        validateQuerySafety sql = Rejected (DangerousOperation k))
  /\ (containsKeyword sql = false ->
      includes "COPY" (toUpperCase sql) = true ->
      validateQuerySafety sql = Rejected FileSystemAccess)
  /\ (containsKeyword sql = false ->
      includes "COPY" (toUpperCase sql) = false ->
      validateQuerySafety sql = Rejected NotASelect)
  /\ (exists reason,
        validateQuerySafety sql = Rejected reason /\
        (reason = NotASelect \/ reason = FileSystemAccess \/
         exists k, In k dangerousKeywords /\ reason = DangerousOperation k)).
Proof.
  intros Hsel.
  assert (E : validateQuerySafety sql
              = match firstKeyword sql with
                | Some keyword => Rejected (DangerousOperation keyword)
                | None =>
                    if includes "COPY" (toUpperCase sql)
                    then Rejected FileSystemAccess
                    else Rejected NotASelect
                end).
  { rewrite validateQuerySafety_cascade, select_prefix_trim, Hsel, firstKeyword_trim.
    rewrite copy_test_is_one_test, (includes_trim "COPY") by reflexivity.
    reflexivity. }
  split; [exact E|]. rewrite E. split; [|split; [|split]].
  - intros K. destruct (firstKeyword sql) as [k|] eqn:F.
    + exists k. pose proof (find_some _ _ F) as [Hin Hk]. auto.
    + apply firstKeyword_None in F. congruence.
  - intros K C. apply firstKeyword_None in K. now rewrite K, C.
  - intros K C. apply firstKeyword_None in K. now rewrite K, C.
  - destruct (firstKeyword sql) as [k|] eqn:F.
    + exists (DangerousOperation k). split; [reflexivity|].
      right; right. exists k. split; [exact (proj1 (find_some _ _ F))|reflexivity].
    + destruct (includes "COPY" (toUpperCase sql)); eexists; split;
        try reflexivity; auto.
Qed.

Lemma non_select_is_rejected_witness :
  validateQuerySafety "EXPLAIN SELECT * FROM customers" = Rejected NotASelect
  /\ validateQuerySafety "  drop table customers" = Rejected (DangerousOperation "DROP")
  /\ validateQuerySafety "\COPY customers TO '/tmp/data.csv'" = Rejected FileSystemAccess.
Proof.
  split; [|split].
  - now rewrite (proj1 (non_select_is_rejected "EXPLAIN SELECT * FROM customers" eq_refl)).
  - now rewrite (proj1 (non_select_is_rejected "  drop table customers" eq_refl)).
  - now rewrite (proj1 (non_select_is_rejected "\COPY customers TO '/tmp/data.csv'" eq_refl)).
Defined.

(** C7: a statement whose upper-cased text holds one of the eleven
    keywords anywhere is rejected as [DangerousOperation] (naming the first
    keyword of the list that occurs); a statement holding none, with no
    COPY, starting with SELECT and clear of the sub-query patterns, is
    accepted, as is [SELECT * FROM customers]. *)
Theorem dangerous_keyword_is_rejected (sql : string) :
  (containsKeyword sql = true ->
   exists k, In k dangerousKeywords /\
     includes k (toUpperCase sql) = true /\
     validateQuerySafety sql = Rejected (DangerousOperation k))
  /\ (containsKeyword sql = false ->
      includes "COPY" (toUpperCase sql) = false ->
      startsWithSelect sql = true ->
      containsDangerousSubquery sql = false ->
      validateQuerySafety sql = Accepted)
  /\ validateQuerySafety "SELECT * FROM customers" = Accepted.
Proof.
  split; [|split].
  - intros H. destruct (keyword_found sql H) as (k & Hin & Hfind).
    exists k. split; [assumption|]. split.
    + apply find_some in Hfind as [_ Hk]. cbv beta in Hk.
      now rewrite keyword_includes_trim in Hk.
    + now rewrite validateQuerySafety_cascade, Hfind.
  - intros Hk Hcopy Hsel Hsub.
    rewrite validateQuerySafety_cascade, (keyword_not_found sql Hk).
    rewrite select_prefix_trim, Hsel, Hsub.
    rewrite (includes_trim "COPY") by reflexivity. rewrite Hcopy.
    destruct (includes "\COPY" (trim (toUpperCase sql))) eqn:E; [|reflexivity].
    apply includes_drop_first in E.
    rewrite (includes_trim "COPY") in E by reflexivity. congruence.
  - vm_compute. reflexivity.
Qed.

Lemma dangerous_keyword_is_rejected_witness :
  (exists k, In k dangerousKeywords /\
     includes k (toUpperCase "select update_count from stats") = true /\
     validateQuerySafety "select update_count from stats"
       = Rejected (DangerousOperation k))
  /\ validateQuerySafety "SELECT id, name FROM customers WHERE id = 1" = Accepted.
Proof.
  split.
  - apply (proj1 (dangerous_keyword_is_rejected "select update_count from stats")).
    vm_compute. reflexivity.
  - apply (proj1 (proj2 (dangerous_keyword_is_rejected
                           "SELECT id, name FROM customers WHERE id = 1")));
      vm_compute; reflexivity.
Defined.

(** ** The bounded executor *)

Lemma heldConnections_app (l evs : list Event) :
  heldConnections (l ++ evs) = heldConnections l + heldConnections evs.
Proof.
  induction l as [|[] l IH]; cbn [heldConnections app]; lia.
Qed.

Lemma statements_app (l evs : list Event) :
  statements (l ++ evs) = (statements l ++ statements evs)%list.
Proof.
  induction l as [|[] l IH]; simpl; congruence.
Qed.

Ltac split_replies :=
  repeat match goal with
         | |- context [if (?a <=? ?b) then _ else _] => destruct (a <=? b) eqn:?
         | |- context [match answer ?r with _ => _ end] => destruct (answer r) eqn:?
         end.

Lemma executor_trace (this : Service) (sql : string) (p0 : Pending) :
  exists evs,
    events (snd (executor this sql p0)) = (events p0 ++ evs)%list /\
    elapsed p0 <= elapsed (snd (executor this sql p0)) /\
    match fst (executor this sql p0) with
    | Resolve _ =>
        evs = [Connect; Query (setTimeoutSQL this); Query (finalSQL this sql); Release]
    | _ =>
        evs = [] \/
        evs = [Connect; Query (setTimeoutSQL this)] \/
        evs = [Connect; Query (setTimeoutSQL this); Query (finalSQL this sql)]
    end.
Proof.
  unfold executor, await, emit. cbn [elapsed events].
  split_replies; cbn [fst snd elapsed events];
    repeat rewrite <- app_assoc; cbn [app].
  all: try (exists []; rewrite app_nil_r; repeat split; auto; lia).
  all: eexists; (split; [reflexivity|]); (split; [lia|]); auto.
Qed.

Lemma executeWithTimeout_trace (this : Service) (sql : string)
    (options : Options) (w : World) :
  exists evs,
    log (snd (executeWithTimeout this sql options w)) = (log w ++ evs)%list /\
    clock w <= clock (snd (executeWithTimeout this sql options w)) /\
    match fst (executeWithTimeout this sql options w) with
    | Returned _ =>
        evs = [Connect; Query (setTimeoutSQL this); Query (finalSQL this sql); Release]
    | Thrown _ =>
        evs = [] \/
        evs = [Connect; Query (setTimeoutSQL this)] \/
        evs = [Connect; Query (setTimeoutSQL this); Query (finalSQL this sql)]
    end.
Proof.
  unfold executeWithTimeout.
  destruct (executor_trace this sql {| elapsed := 0; events := log w |})
    as (evs & Hev & Hel & Hshape).
  cbn [elapsed events] in Hev, Hel.
  destruct (executor this sql _) as [s p]. cbn [fst snd] in *.
  exists evs. destruct s; cbn [fst snd log clock]; repeat split; auto; lia.
Qed.

(** *** Reasoning about what a computation sends *)

Lemma sends_ret {A} (allowed : string -> Prop) (a : A) : sends allowed (ret a).
Proof.
  intros w. exists []. cbn. rewrite app_nil_r. repeat split; [lia|constructor].
Qed.

Lemma sends_throw {A} (allowed : string -> Prop) (e : Error) :
  sends allowed (@throw A e).
Proof.
  intros w. exists []. cbn. rewrite app_nil_r. repeat split; [lia|constructor].
Qed.

Lemma sends_lift {A} (allowed : string -> Prop) (c : Completion A) :
  sends allowed (lift c).
Proof.
  intros w. exists []. cbn. rewrite app_nil_r. repeat split; [lia|constructor].
Qed.

Lemma sends_now (allowed : string -> Prop) : sends allowed now.
Proof.
  intros w. exists []. cbn. rewrite app_nil_r. repeat split; [lia|constructor].
Qed.

Lemma sends_bind {A B} (allowed : string -> Prop) (m : M A) (k : A -> M B) :
  sends allowed m ->
  (forall a, yields m a -> sends allowed (k a)) ->
  sends allowed (bind m k).
Proof.
  intros Hm Hk w. unfold bind.
  destruct (Hm w) as (evs1 & Hlog1 & Hclk1 & Hall1).
  destruct (m w) as [[a|e] w1] eqn:E; cbn [snd] in *.
  - destruct (Hk a (ex_intro _ w (ex_intro _ w1 E)) w1) as (evs2 & Hlog2 & Hclk2 & Hall2).
    exists (evs1 ++ evs2)%list. rewrite Hlog2, Hlog1, app_assoc.
    repeat split; [lia|]. rewrite statements_app. now apply Forall_app.
  - exists evs1. auto.
Qed.

Lemma sends_tryCatch {A} (allowed : string -> Prop) (body : M A)
    (handler : Error -> M A) :
  sends allowed body ->
  (forall e, sends allowed (handler e)) ->
  sends allowed (tryCatch body handler).
Proof.
  intros Hb Hh w. unfold tryCatch.
  destruct (Hb w) as (evs1 & Hlog1 & Hclk1 & Hall1).
  destruct (body w) as [[a|e] w1] eqn:E; cbn [snd] in *.
  - exists evs1. auto.
  - destruct (Hh e w1) as (evs2 & Hlog2 & Hclk2 & Hall2).
    exists (evs1 ++ evs2)%list. rewrite Hlog2, Hlog1, app_assoc.
    repeat split; [lia|]. rewrite statements_app. now apply Forall_app.
Qed.

Lemma sends_weaken {A} (P Q : string -> Prop) (m : M A) :
  (forall text, P text -> Q text) -> sends P m -> sends Q m.
Proof.
  intros HPQ Hm w. destruct (Hm w) as (evs & Hlog & Hclk & Hall).
  exists evs. repeat split; auto. eapply Forall_impl; eauto.
Qed.

Lemma sends_executeWithTimeout (this : Service) (sql : string) (options : Options) :
  sends (fun text => text = setTimeoutSQL this \/ text = finalSQL this sql)
    (executeWithTimeout this sql options).
Proof.
  intros w.
  destruct (executeWithTimeout_trace this sql options w) as (evs & Hlog & Hclk & Hshape).
  exists evs. repeat split; auto.
  destruct (fst (executeWithTimeout this sql options w));
    [|destruct Hshape as [?|[?|?]]]; subst; cbn [statements];
    repeat (constructor; auto).
Qed.

Lemma yields_lift {A} (c : Completion A) (a : A) : yields (lift c) a -> c = Returned a.
Proof.
  intros (w & w' & H). unfold lift in H. congruence.
Qed.

Lemma yields_throw {A} (e : Error) (a : A) : yields (throw e) a -> False.
Proof.
  intros (w & w' & H). discriminate.
Qed.

Create HintDb sends.
#[local] Hint Resolve sends_ret sends_throw sends_lift sends_now : sends.

Lemma sends_In {A} (allowed : string -> Prop) (m : M A) (w : World) :
  sends allowed m ->
  exists evs,
    log (snd (m w)) = (log w ++ evs)%list /\
    forall text, In text (statements evs) -> allowed text.
Proof.
  intros H. destruct (H w) as (evs & Hlog & _ & Hall).
  exists evs. split; [assumption|]. now apply Forall_forall.
Qed.

Lemma sends_validateSyntax (this : Service) (sql : string) :
  sends (fun text => text = setTimeoutSQL this \/
                     text = finalSQL this ("EXPLAIN " ++ sql))
    (validateSyntax this sql).
Proof.
  unfold validateSyntax. apply sends_tryCatch; [|auto with sends].
  apply sends_bind; [apply sends_executeWithTimeout|auto with sends].
Qed.


Lemma executeQuery_rejected (format : string -> option string) (this : Service)
    (sql : string) (options : Options) (w : World) (reason : ErrorKind) :
  validateQuerySafety sql = Rejected reason ->
  executeQuery format this sql options w =
  (Returned (ExecFailure (message_of reason) 0 (formatSQL format sql)
               {| executed_at := clock w; sandbox_mode := sandboxMode this |}), w).
Proof.
  intros H. unfold executeQuery, bind, tryCatch, now, awaitValidateQuerySafety.
  rewrite H. cbn. now rewrite Z.sub_diag.
Qed.

Lemma sends_executeQuery (format : string -> option string) (this : Service)
    (sql : string) (options : Options) :
  sends (fun text => text = setTimeoutSQL this \/
                     (validateQuerySafety sql = Accepted /\
                      text = finalSQL this (formatSQL format sql)))
    (executeQuery format this sql options).
Proof.
  unfold executeQuery. apply sends_bind; [auto with sends|intros startTime _].
  apply sends_tryCatch.
  - unfold awaitValidateQuerySafety.
    destruct (validateQuerySafety sql) eqn:V.
    + apply sends_bind; [auto with sends|intros _ _].
      apply sends_bind.
      * eapply sends_weaken; [|apply sends_executeWithTimeout].
        cbv beta. intros text [H|H]; auto.
      * intros. repeat (apply sends_bind; [auto with sends|intros]). auto with sends.
    + apply sends_bind; [auto with sends|].
      intros a Ha. now apply yields_throw in Ha.
  - intros e. repeat (apply sends_bind; [auto with sends|intros]). auto with sends.
Qed.

Lemma tryCatch_bind {A B} (m : M A) (k : A -> M B) (h : Error -> M B) (w : World) :
  tryCatch (bind m k) h w =
  match m w with
  | (Returned a, w1) => tryCatch (k a) h w1
  | (Thrown e, w1) => h e w1
  end.
Proof.
  unfold tryCatch, bind. now destruct (m w) as [[a|e] w1].
Qed.

Lemma bind_now {B} (k : Z -> M B) (w : World) : bind now k w = k (clock w) w.
Proof. reflexivity. Qed.

Lemma bind_run {A B} (m : M A) (k : A -> M B) (w : World) :
  bind m k w =
  match m w with
  | (Returned a, w1) => k a w1
  | (Thrown e, w1) => (Thrown e, w1)
  end.
Proof. reflexivity. Qed.

(** [processQuery] is its first three steps, then [afterGeneration]; an
    error of the first three steps goes straight to the catch block. *)
Lemma processQuery_resumes {Embedding SchemaItem : Type}
    (format : string -> option string) (queryService : Service)
    (deps : Collaborators Embedding SchemaItem) (query : string)
    (options : ProcessOptions) (w : World) :
  match beforeSyntaxCheck deps query options w with
  | (Returned sqlResult, w1) =>
      exists schemaContext,
        processQuery format queryService deps query options w
        = afterGeneration format queryService query options (clock w)
            schemaContext sqlResult w1
  | (Thrown e, w1) =>
      processQuery format queryService deps query options w
      = (Returned (Failed (message e) query (clock w1 - clock w)), w1)
  end.
Proof.
  unfold processQuery. rewrite bind_now, tryCatch_bind.
  unfold beforeSyntaxCheck. rewrite bind_run.
  destruct (ensureInitialized deps w) as [[u|e] w1]; [|reflexivity].
  cbv beta zeta. rewrite tryCatch_bind, bind_run.
  destruct (generateEmbedding deps query w1) as [[emb|e] w2]; [|reflexivity].
  cbv beta. rewrite tryCatch_bind, bind_run.
  destruct (findRelevantSchema deps query emb 15 w2) as [[ctx|e] w3]; [|reflexivity].
  cbv beta. rewrite tryCatch_bind.
  destruct (generateSQL deps query ctx (orDefault (opt_language options) "en") w3)
    as [[r|e] w4]; [|reflexivity].
  exists ctx. reflexivity.
Qed.


Lemma afterGeneration_returns {SchemaItem : Type}
    (format : string -> option string) (queryService : Service)
    (query : string) (options : ProcessOptions) (startTime : Z)
    (schemaContext : list SchemaItem) (sqlResult : SqlResult) (w : World) :
  exists response w',
    afterGeneration format queryService query options startTime
      schemaContext sqlResult w = (Returned response, w').
Proof.
  unfold afterGeneration, tryCatch.
  match goal with
  | |- context [let (c, w') := ?body in _] => destruct body as [[response|e] w']
  end; [eauto|].
  unfold bind, now, ret. eauto.
Qed.

(** ** Ordering of the safety check *)




(** ** Connections *)

(** C4 (the code departs from the claim): [client.release()] is reached
    only after the final statement has answered; when the driver throws or
    the timer fires with a client checked out, the connection stays out. *)
Theorem failed_execution_keeps_the_connection :
  (forall this sql options w,
      match executeWithTimeout this sql options w with
      | (Returned _, w') =>
          heldConnections (log w') = heldConnections (log w)
      | (Thrown _, w') =>
          log w' = log w \/
          heldConnections (log w') = heldConnections (log w) + 1
      end)
  /\ log (snd (executeQuery verbatim (constructor missingTableDriver noEnv)
                 "SELECT * FROM nonexistent_table" noOptions startOfDay))
     = [ Connect; Query "SET statement_timeout = 30000";
         Query "SELECT * FROM nonexistent_table LIMIT 10000" ]
  /\ heldConnections
       (log (snd (executeQuery verbatim (constructor missingTableDriver noEnv)
                    "SELECT * FROM nonexistent_table" noOptions startOfDay))) = 1
  /\ heldConnections
       (log (snd (executeQuery verbatim (constructor stalledDriver noEnv)
                    "SELECT * FROM customers" noOptions startOfDay))) = 1.
Proof.
  split; [|repeat split; vm_compute; reflexivity].
  intros this sql options w.
  destruct (executeWithTimeout_trace this sql options w) as (evs & Hlog & _ & Hshape).
  destruct (executeWithTimeout this sql options w) as [[r|e] w'];
    cbn [fst snd] in *; rewrite Hlog.
  - subst evs. rewrite heldConnections_app. cbn [heldConnections]. lia.
  - destruct Hshape as [?|[?|?]]; subst evs.
    + left. apply app_nil_r.
    + right. rewrite heldConnections_app. cbn [heldConnections]. lia.
    + right. rewrite heldConnections_app. cbn [heldConnections]. lia.
Qed.

(** ** LIMIT injection *)

Lemma maxResultRows_truthy (db : Driver) (env : Env) :
  maxResultRows (constructor db env) <> 0.
Proof.
  unfold constructor, parseIntOr. cbn [maxResultRows].
  destruct (MAX_RESULT_ROWS env) as [s|]; [|discriminate].
  destruct (parseInt s) as [[| |]|]; discriminate.
Qed.

(** C5 (the code departs from the claim): [executeWithTimeout] never
    reads its [options]; the bound appended is [maxResultRows], taken from
    the environment when the service is built, whatever [maxResults] says. *)
Theorem maxResults_option_is_ignored :
  (forall format this sql options options' w,
      executeQuery format this sql options w
      = executeQuery format this sql options' w)
  /\ (forall db env sql,
         finalSQL (constructor db env) sql
         = if mentionsLimit sql then sql
           else sql ++ " LIMIT " ++ numberToString (maxResultRows (constructor db env)))
  /\ maxResultRows (constructor obligingDriver noEnv) = 10000
  /\ statements
       (log (snd (executeQuery sampleFormat (constructor obligingDriver noEnv)
                    "SELECT * FROM customers" {| maxResults := Some 50 |}
                    startOfDay)))
     = [ "SET statement_timeout = 30000";
         "SELECT" ++ nl ++ "  *" ++ nl ++ "FROM" ++ nl ++ "  customers LIMIT 10000" ].
Proof.
  split; [reflexivity|]. split; [|repeat split; vm_compute; reflexivity].
  intros db env sql. unfold finalSQL, mentionsLimit.
  destruct (Z.eqb_spec (maxResultRows (constructor db env)) 0) as [E|_].
  - now apply maxResultRows_truthy in E.
  - cbn [negb andb]. now destruct (includes "LIMIT" (toUpperCase sql)).
Qed.

(** C10: the statement is left as it is whenever its upper-cased text
    holds the letters LIMIT anywhere, be it in an identifier or a literal:
    the run sends the timeout setting and the statement itself, with no
    row bound. *)
Theorem limit_mention_disables_injection (this : Service) (sql : string)
    (options : Options) (w : World) :
  mentionsLimit sql = true ->
  finalSQL this sql = sql
  /\ (exists evs,
        log (snd (executeWithTimeout this sql options w)) = (log w ++ evs)%list /\
        forall text, In text (statements evs) ->
          text = setTimeoutSQL this \/ text = sql)
  /\ (forall result w',
        executeWithTimeout this sql options w = (Returned result, w') ->
        log w' = (log w ++ [Connect; Query (setTimeoutSQL this); Query sql; Release])%list).
Proof.
  intros H.
  assert (E : finalSQL this sql = sql).
  { unfold finalSQL. unfold mentionsLimit in H. rewrite H.
    now rewrite andb_false_r. }
  split; [assumption|]. split.
  - destruct (sends_In _ _ w (sends_executeWithTimeout this sql options))
      as (evs & Hlog & Hall).
    exists evs. split; [assumption|]. intros text Hin.
    specialize (Hall text Hin). now rewrite E in Hall.
  - intros result w' Hrun.
    destruct (executeWithTimeout_trace this sql options w) as (evs & Hlog & _ & Hshape).
    rewrite Hrun in Hlog, Hshape. cbn [fst snd] in *.
    now rewrite Hlog, Hshape, E.
Qed.

Lemma limit_mention_disables_injection_witness :
  finalSQL (constructor obligingDriver noEnv) "SELECT limit_value FROM metrics"
  = "SELECT limit_value FROM metrics"
  /\ finalSQL (constructor obligingDriver noEnv)
       "SELECT * FROM notes WHERE body = 'no limit'"
     = "SELECT * FROM notes WHERE body = 'no limit'".
Proof.
  split.
  - apply (limit_mention_disables_injection (constructor obligingDriver noEnv)
             "SELECT limit_value FROM metrics" noOptions startOfDay).
    vm_compute. reflexivity.
  - apply (limit_mention_disables_injection (constructor obligingDriver noEnv)
             "SELECT * FROM notes WHERE body = 'no limit'" noOptions startOfDay).
    vm_compute. reflexivity.
Defined.

(** ** Failures as data *)

(** C8: [executeQuery] always returns an object and never throws, for any
    text, options, formatter, driver behaviour and clock. A rejected
    statement, a driver error and a timeout all come back with
    [success: false], the message of the error, and the elapsed time. *)
Theorem executeQuery_never_throws (format : string -> option string)
    (this : Service) (sql : string) (options : Options) (w : World) :
  exists r w',
    executeQuery format this sql options w = (Returned r, w') /\
    executionTimeOf r = clock w' - clock w /\
    0 <= executionTimeOf r /\
    (forall reason,
        validateQuerySafety sql = Rejected reason ->
        success r = false /\ errorOf r = Some (message_of reason)) /\
    (forall error w1,
        validateQuerySafety sql = Accepted ->
        executeWithTimeout this (formatSQL format sql) options w = (Thrown error, w1) ->
        success r = false /\ errorOf r = Some (message error)) /\
    (forall result w1,
        validateQuerySafety sql = Accepted ->
        executeWithTimeout this (formatSQL format sql) options w = (Returned result, w1) ->
        success r = true).
Proof.
  destruct (validateQuerySafety sql) as [|reason] eqn:V.
  - pose proof (executeWithTimeout_trace this (formatSQL format sql) options w)
      as (evs & _ & Hclk & _).
    unfold executeQuery, bind, tryCatch, now, awaitValidateQuerySafety, ret.
    rewrite V. cbn [fst snd].
    destruct (executeWithTimeout this (formatSQL format sql) options w)
      as [[result|error] w1]; cbn [snd] in Hclk;
      eexists; eexists; (split; [reflexivity|]); cbn [executionTimeOf];
      repeat split; try lia; intros; try discriminate;
      repeat split; cbn [success errorOf]; congruence.
  - rewrite (executeQuery_rejected format this sql options w reason V).
    eexists; eexists; (split; [reflexivity|]); cbn [executionTimeOf];
      repeat split; try lia; intros; try discriminate;
      repeat split; cbn [success errorOf]; congruence.
Qed.

Lemma executeQuery_never_throws_witness :
  (exists r w',
      executeQuery verbatim (constructor missingTableDriver noEnv)
        "SELECT * FROM nonexistent_table" noOptions startOfDay = (Returned r, w')
      /\ success r = false /\ errorOf r = Some "Table does not exist")
  /\ (exists r w',
      executeQuery verbatim (constructor stalledDriver noEnv)
        "SELECT * FROM customers" noOptions startOfDay = (Returned r, w')
      /\ success r = false /\ errorOf r = Some "Query timeout after 30000ms")
  /\ (exists r w',
      executeQuery verbatim (constructor obligingDriver noEnv)
        "DELETE FROM customers" noOptions startOfDay = (Returned r, w')
      /\ success r = false
      /\ errorOf r
         = Some "Dangerous operation detected: DELETE statements are not allowed").
Proof.
  split; [|split].
  - destruct (executeQuery_never_throws verbatim (constructor missingTableDriver noEnv)
                "SELECT * FROM nonexistent_table" noOptions startOfDay)
      as (r & w' & Hrun & _ & _ & _ & Hthrown & _).
    exists r, w'. split; [assumption|].
    eapply (Hthrown (newError "Table does not exist")); vm_compute; reflexivity.
  - destruct (executeQuery_never_throws verbatim (constructor stalledDriver noEnv)
                "SELECT * FROM customers" noOptions startOfDay)
      as (r & w' & Hrun & _ & _ & _ & Hthrown & _).
    exists r, w'. split; [assumption|].
    eapply (Hthrown (newError "Query timeout after 30000ms")); vm_compute; reflexivity.
  - destruct (executeQuery_never_throws verbatim (constructor obligingDriver noEnv)
                "DELETE FROM customers" noOptions startOfDay)
      as (r & w' & Hrun & _ & _ & Hrejected & _).
    exists r, w'. split; [assumption|].
    apply (Hrejected (DangerousOperation "DELETE")). vm_compute. reflexivity.
Defined.

(** ** Formatting and the submitted text *)

(** C9, as stated, fails: what the engine receives is the formatter's
    output, not the caller's string. *)
Lemma formatted_text_is_what_gets_executed :
  validateQuerySafety "select id from customers" = Accepted
  /\ statements
       (log (snd (executeQuery sampleFormat (constructor obligingDriver noEnv)
                    "select id from customers" noOptions startOfDay)))
     = [ "SET statement_timeout = 30000";
         "SELECT" ++ nl ++ "  id" ++ nl ++ "FROM" ++ nl ++ "  customers LIMIT 10000" ]
  /\ "SELECT" ++ nl ++ "  id" ++ nl ++ "FROM" ++ nl ++ "  customers LIMIT 10000"
     <> "select id from customers LIMIT 10000"
  /\ "SELECT" ++ nl ++ "  id" ++ nl ++ "FROM" ++ nl ++ "  customers LIMIT 10000"
     <> "select id from customers".
Proof. repeat split; try (vm_compute; reflexivity); discriminate. Qed.

(** C9, amended: the validator only inspects the text; the statement
    submitted is the output of the formatter on the caller's string, with
    LIMIT appended when that output holds none, and this formatted text is
    also the [sql] of the returned object. It is the caller's string itself
    (again up to the appended LIMIT) exactly when the formatter throws or
    returns its input unchanged. Nothing is submitted for a statement the
    validator rejects. *)
Theorem submitted_text_is_the_formatted_text (format : string -> option string)
    (this : Service) (sql : string) (options : Options) (w : World) :
  (exists evs,
      log (snd (executeQuery format this sql options w)) = (log w ++ evs)%list /\
      forall text, In text (statements evs) ->
        text = setTimeoutSQL this \/
        (validateQuerySafety sql = Accepted /\
         text = finalSQL this (formatSQL format sql)))
  /\ (forall result w1,
         validateQuerySafety sql = Accepted ->
         executeWithTimeout this (formatSQL format sql) options w = (Returned result, w1) ->
         statements (log (snd (executeQuery format this sql options w)))
         = (statements (log w)
              ++ [setTimeoutSQL this; finalSQL this (formatSQL format sql)])%list)
  /\ (format sql = None -> formatSQL format sql = sql)
  /\ (exists r w',
         executeQuery format this sql options w = (Returned r, w') /\
         sqlOf r = formatSQL format sql)
  /\ (formatSQL format sql = sql <-> format sql = None \/ format sql = Some sql)
  /\ (forall reason,
         validateQuerySafety sql = Rejected reason ->
         snd (executeQuery format this sql options w) = w).
Proof.
  split; [|split; [|split; [|split; [|split]]]].
  - apply (sends_In _ _ w (sends_executeQuery format this sql options)).
  - intros result w1 V Hrun.
    pose proof (executeWithTimeout_trace this (formatSQL format sql) options w)
      as (evs & Hlog & _ & Hshape).
    rewrite Hrun in Hlog, Hshape. cbn [fst snd] in Hlog, Hshape.
    unfold executeQuery, bind, tryCatch, now, awaitValidateQuerySafety, ret.
    rewrite V. cbn [fst snd]. rewrite Hrun. cbn [snd].
    rewrite Hlog, Hshape, statements_app. reflexivity.
  - intros H. unfold formatSQL. now rewrite H.
  - destruct (validateQuerySafety sql) as [|reason] eqn:V.
    + unfold executeQuery, bind, tryCatch, now, awaitValidateQuerySafety, ret.
      rewrite V. cbn [fst snd].
      destruct (executeWithTimeout this (formatSQL format sql) options w)
        as [[result|error] w1]; eexists; eexists; split; reflexivity.
    + rewrite (executeQuery_rejected format this sql options w reason V).
      eexists; eexists; split; reflexivity.
  - unfold formatSQL. destruct (format sql) as [formatted|].
    + split; [intros ->; auto|]. intros [H|H]; [discriminate|congruence].
    + split; auto.
  - intros reason V.
    now rewrite (executeQuery_rejected format this sql options w reason V).
Qed.

Lemma submitted_text_is_the_formatted_text_witness :
  statements
    (log (snd (executeQuery brokenFormat (constructor obligingDriver noEnv)
                 "select id from customers" noOptions startOfDay)))
  = [ "SET statement_timeout = 30000"; "select id from customers LIMIT 10000" ]
  /\ formatSQL brokenFormat "select id from customers" = "select id from customers"
  /\ formatSQL verbatim "select id from customers" = "select id from customers".
Proof.
  destruct (submitted_text_is_the_formatted_text brokenFormat
              (constructor obligingDriver noEnv) "select id from customers"
              noOptions startOfDay) as (_ & Hsent & Hfallback & _).
  split; [|split].
  - rewrite (Hsent planResult
               {| clock := 1015;
                  log := [ Connect; Query "SET statement_timeout = 30000";
                           Query "select id from customers LIMIT 10000"; Release ] |});
      vm_compute; reflexivity.
  - apply Hfallback. reflexivity.
  - apply (proj2 (proj1 (proj2 (proj2 (proj2 (proj2
             (submitted_text_is_the_formatted_text verbatim
                (constructor obligingDriver noEnv) "select id from customers"
                noOptions startOfDay))))))).
    right. reflexivity.
Defined.

(** * Further properties of the code *)

(** ** The validator, beyond the specification's sentences *)

Lemma startsWith_app_left (p q s : string) :
  startsWith (p ++ q) s = true -> startsWith p s = true.
Proof.
  revert s; induction p as [|a p IH]; intros s H; [now destruct s|].
  destruct s as [|b s]; [discriminate|].
  cbn [append startsWith] in *. apply andb_true_iff in H as [Hab H].
  now rewrite Hab, (IH s H).
Qed.

Lemma includes_app_left (p q s : string) :
  includes (p ++ q) s = true -> includes p s = true.
Proof.
  induction s as [|b s IH]; cbn [includes]; intros H.
  - now apply startsWith_app_left in H.
  - apply orb_true_iff in H as [H|H].
    + now rewrite (startsWith_app_left _ _ _ H).
    + rewrite (IH H). apply orb_true_r.
Qed.

(** X1: the exact acceptance criterion. A statement passes the validator
    if and only if its upper-cased text holds none of the eleven keywords
    and no COPY, it starts with SELECT once leading white space is set
    aside, and none of the three sub-query patterns matches it. The lists
    of system tables and of dangerous functions play no part. *)
Theorem validator_accepts_exactly (sql : string) :
  validateQuerySafety sql = Accepted <->
  containsKeyword sql = false /\
  includes "COPY" (toUpperCase sql) = false /\
  startsWithSelect sql = true /\
  containsDangerousSubquery sql = false.
Proof.
  rewrite validateQuerySafety_cascade, copy_test_is_one_test, select_prefix_trim.
  rewrite (includes_trim "COPY") by reflexivity.
  destruct (containsKeyword sql) eqn:K.
  - destruct (keyword_found sql K) as (k & _ & ->).
    split; [discriminate|]. intros (H & _). discriminate.
  - rewrite (keyword_not_found sql K).
    destruct (includes "COPY" (toUpperCase sql));
      [split; [discriminate|intros (_ & H & _); discriminate]|].
    destruct (startsWithSelect sql); cbn [negb];
      [|split; [discriminate|intros (_ & _ & H & _); discriminate]].
    destruct (containsDangerousSubquery sql);
      [split; [discriminate|intros (_ & _ & _ & H); discriminate]|].
    now repeat split.
Qed.

(** X2: a [DangerousOperation] verdict names a keyword that does occur
    in the upper-cased text, and never EXECUTE: a text holding EXECUTE holds
    EXEC, which comes first in the list. *)
Theorem reported_keyword_is_never_EXECUTE (sql keyword : string) :
  validateQuerySafety sql = Rejected (DangerousOperation keyword) ->
  In keyword dangerousKeywords /\
  includes keyword (toUpperCase sql) = true /\
  keyword <> "EXECUTE".
Proof.
  rewrite validateQuerySafety_cascade.
  destruct (find _ dangerousKeywords) as [k|] eqn:E.
  - intros H. injection H as <-.
    pose proof (find_some _ _ E) as [Hin Hk]. cbv beta in Hk.
    split; [assumption|]. split; [now rewrite keyword_includes_trim in Hk|].
    intros ->. unfold dangerousKeywords in E. cbn [find] in E.
    repeat match type of E with
           | (if ?b then _ else _) = _ => destruct b eqn:?; [discriminate|]
           end.
    match goal with
    | H : includes "EXEC" _ = false |- _ =>
        rewrite (includes_app_left "EXEC" "UTE" _ Hk) in H; discriminate
    end.
  - repeat match goal with
           | |- context [if ?b then _ else _] => destruct b
           end; discriminate.
Qed.

Lemma reported_keyword_is_never_EXECUTE_witness :
  In "EXEC" dangerousKeywords /\
  includes "EXEC" (toUpperCase "execute sp_who") = true /\
  "EXEC" <> "EXECUTE".
Proof.
  apply (reported_keyword_is_never_EXECUTE "execute sp_who" "EXEC").
  vm_compute. reflexivity.
Defined.

Lemma upperChar_idempotent (c : ascii) : upperChar (upperChar c) = upperChar c.
Proof.
  destruct c as [[] [] [] [] [] [] [] []]; reflexivity.
Qed.

Lemma lineTerminator_upperChar (c : ascii) :
  Regex.isLineTerminator (upperChar c) = Regex.isLineTerminator c.
Proof.
  destruct c as [[] [] [] [] [] [] [] []]; reflexivity.
Qed.

Lemma deriv_upperChar (c : ascii) (r : Regex.re) :
  Regex.deriv (upperChar c) r = Regex.deriv c r.
Proof.
  induction r as [| |a| |r1 IH1 r2 IH2|r1 IH1 r2 IH2|r1 IH1]; cbn [Regex.deriv];
    rewrite ?upperChar_idempotent, ?lineTerminator_upperChar, ?IH1, ?IH2;
    reflexivity.
Qed.

Lemma matchesPrefix_toUpperCase (s : string) (r : Regex.re) :
  Regex.matchesPrefix r (toUpperCase s) = Regex.matchesPrefix r s.
Proof.
  revert r; induction s as [|c s IH]; intros r; [reflexivity|].
  cbn [toUpperCase Regex.matchesPrefix]. now rewrite deriv_upperChar, IH.
Qed.

Lemma test_toUpperCase (r : Regex.re) (s : string) :
  Regex.test r (toUpperCase s) = Regex.test r s.
Proof.
  induction s as [|c s IH]; [reflexivity|].
  change (toUpperCase (String c s)) with (String (upperChar c) (toUpperCase s)).
  cbn [Regex.test]. rewrite IH.
  change (String (upperChar c) (toUpperCase s)) with (toUpperCase (String c s)).
  now rewrite matchesPrefix_toUpperCase.
Qed.

Lemma containsDangerousSubquery_toUpperCase (sql : string) :
  containsDangerousSubquery (toUpperCase sql) = containsDangerousSubquery sql.
Proof.
  unfold containsDangerousSubquery.
  induction dangerousPatterns as [|r l IH]; [reflexivity|].
  cbn [existsb]. now rewrite test_toUpperCase, IH.
Qed.

(** X3: for statements written in ASCII the verdict does not depend on
    letter case: two such statements that agree once upper-cased get the
    same verdict, reason included. (Outside ASCII, [toUpperCase] folds
    letters that the [i] flag of the patterns does not.) *)
Theorem verdict_ignores_letter_case (a b : string) :
  isAscii a = true -> isAscii b = true ->
  toUpperCase a = toUpperCase b ->
  validateQuerySafety a = validateQuerySafety b.
Proof.
  intros _ _ H. unfold validateQuerySafety. cbv zeta. rewrite H.
  now rewrite <- (containsDangerousSubquery_toUpperCase a), H,
    containsDangerousSubquery_toUpperCase.
Qed.

Lemma verdict_ignores_letter_case_witness :
  validateQuerySafety "Select * From Pg_User"
  = validateQuerySafety "sELECT * fROM pG_uSER".
Proof.
  apply (verdict_ignores_letter_case "Select * From Pg_User" "sELECT * fROM pG_uSER");
    reflexivity.
Defined.

Lemma trimStart_of_word_start (p t : string) :
  nonEmpty p = true -> noWhiteSpace p = true ->
  startsWith p t = true -> trimStart t = t.
Proof.
  destruct p as [|a p]; [discriminate|]. intros _ Hp H.
  destruct t as [|b t]; [reflexivity|].
  cbn [startsWith] in H. apply andb_true_iff in H as [Hab _].
  apply Ascii.eqb_eq in Hab; subst b.
  cbn [noWhiteSpace] in Hp. apply andb_true_iff in Hp as [Ha _].
  apply negb_true_iff in Ha. cbn [trimStart]. now rewrite Ha.
Qed.

(** X4: SQL that [parseSQLResponse] lets through starts with SELECT and
    holds none of the parser's seven keywords, so the validator can still
    reject it only for GRANT, REVOKE or EXEC, for COPY, or for a sub-query
    pattern, and never as [NotASelect]. *)
Theorem parsed_sql_before_the_validator (response : LlmResponse) (r : SqlResult) :
  parseSQLResponse response = Returned r ->
  startsWithSelect (generated r) = true /\
  (forall k, In k parserKeywords ->
             includes k (toUpperCase (generated r)) = false) /\
  (validateQuerySafety (generated r) = Accepted \/
   validateQuerySafety (generated r) = Rejected FileSystemAccess \/
   validateQuerySafety (generated r) = Rejected DangerousSubquery \/
   exists k, In k ["GRANT"; "REVOKE"; "EXEC"] /\
             validateQuerySafety (generated r) = Rejected (DangerousOperation k)).
Proof.
  unfold parseSQLResponse.
  destruct (sqlMatch response) as [captured|]; [|discriminate].
  destruct (startsWith "SELECT" (toUpperCase (trim captured))) eqn:S;
    cbn [negb]; [|discriminate].
  destruct (find _ parserKeywords) eqn:F; [discriminate|].
  intros H. injection H as <-. cbn [generated].
  set (sql := trim captured) in *.
  assert (Hsel : startsWithSelect sql = true).
  { unfold startsWithSelect.
    now rewrite (trimStart_of_word_start "SELECT" _ eq_refl eq_refl S). }
  assert (Hnone : forall k, In k parserKeywords ->
                            includes k (toUpperCase sql) = false).
  { intros k Hk. exact (find_none _ _ F k Hk). }
  split; [assumption|]. split; [assumption|].
  rewrite validateQuerySafety_cascade, select_prefix_trim, Hsel.
  unfold dangerousKeywords. cbn [find negb].
  rewrite !(includes_trim _ (toUpperCase sql)) by reflexivity.
  rewrite !Hnone by (cbn; tauto).
  destruct (includes "GRANT" (toUpperCase sql));
    [right; right; right; exists "GRANT"; cbn; tauto|].
  destruct (includes "REVOKE" (toUpperCase sql));
    [right; right; right; exists "REVOKE"; cbn; tauto|].
  destruct (includes "EXEC" (toUpperCase sql)) eqn:X;
    [right; right; right; exists "EXEC"; cbn; tauto|].
  destruct (includes "EXECUTE" (toUpperCase sql)) eqn:X'.
  { rewrite (includes_app_left "EXEC" "UTE" _ X') in X. discriminate. }
  repeat match goal with
         | |- context [if ?b then _ else _] => destruct b
         end; auto.
Qed.

Lemma parsed_sql_before_the_validator_witness :
  startsWithSelect "SELECT * FROM user_grants" = true
  /\ validateQuerySafety "SELECT * FROM user_grants"
     = Rejected (DangerousOperation "GRANT").
Proof.
  destruct (parsed_sql_before_the_validator
              {| sqlMatch := Some "  SELECT * FROM user_grants ";
                 explanationText := "Grants per user." |}
              {| generated := "SELECT * FROM user_grants";
                 explanation := "Grants per user."; model := "gemini-pro" |}
              eq_refl) as (Hsel & _ & _).
  split; [exact Hsel|vm_compute; reflexivity].
Defined.

(** ** The plan helpers of the execution service *)

Lemma toUpperCase_app (p s : string) :
  toUpperCase (p ++ s) = toUpperCase p ++ toUpperCase s.
Proof.
  induction p as [|c p IH]; cbn [append toUpperCase]; congruence.
Qed.

Lemma append_assoc3 (p s t : string) : (p ++ s) ++ t = p ++ (s ++ t).
Proof.
  induction p as [|c p IH]; cbn [append]; congruence.
Qed.

(** A prefix that ends in a space and holds no LIMIT does not change the
    decision to append one. *)
Lemma finalSQL_under_prefix (this : Service) (p sql : string) :
  (forall u, includes "LIMIT" (toUpperCase p ++ u) = includes "LIMIT" u) ->
  finalSQL this (p ++ sql) = p ++ finalSQL this sql.
Proof.
  intros H. unfold finalSQL. rewrite toUpperCase_app, H.
  destruct (_ && _)%bool; [apply append_assoc3|reflexivity].
Qed.

Lemma finalSQL_explain (this : Service) (sql : string) :
  finalSQL this ("EXPLAIN " ++ sql) = "EXPLAIN " ++ finalSQL this sql.
Proof. apply finalSQL_under_prefix. intros u. reflexivity. Qed.

Lemma finalSQL_explain_json (this : Service) (sql : string) :
  finalSQL this ("EXPLAIN (FORMAT JSON) " ++ sql)
  = "EXPLAIN (FORMAT JSON) " ++ finalSQL this sql.
Proof. apply finalSQL_under_prefix. intros u. reflexivity. Qed.

Lemma finalSQL_explain_analyze (this : Service) (sql : string) :
  finalSQL this ("EXPLAIN (FORMAT JSON, ANALYZE, BUFFERS) " ++ sql)
  = "EXPLAIN (FORMAT JSON, ANALYZE, BUFFERS) " ++ finalSQL this sql.
Proof. apply finalSQL_under_prefix. intros u. reflexivity. Qed.

Lemma executeWithTimeout_held (this : Service) (sql : string)
    (options : Options) (w : World) :
  match executeWithTimeout this sql options w with
  | (Returned _, w') => heldConnections (log w') = heldConnections (log w)
  | (Thrown _, w') =>
      log w' = log w \/ heldConnections (log w') = heldConnections (log w) + 1
  end.
Proof.
  destruct (executeWithTimeout_trace this sql options w) as (evs & Hlog & _ & Hshape).
  destruct (executeWithTimeout this sql options w) as [[r|e] w'];
    cbn [fst snd] in *; rewrite Hlog.
  - subst evs. rewrite heldConnections_app. cbn [heldConnections]. lia.
  - destruct Hshape as [?|[?|?]]; subst evs.
    + left. apply app_nil_r.
    + right. rewrite heldConnections_app. cbn [heldConnections]. lia.
    + right. rewrite heldConnections_app. cbn [heldConnections]. lia.
Qed.

(** X5: [validateSyntax] never throws. What it submits is EXPLAIN
    followed by the caller's SQL with LIMIT appended when the SQL holds
    none; a valid verdict gives the connection back, an invalid one that
    came after a client was handed out leaves that client checked out. *)
Theorem validateSyntax_never_throws (this : Service) (sql : string) (w : World) :
  exists verdict w',
    validateSyntax this sql w = (Returned verdict, w') /\
    (exists evs,
        log w' = (log w ++ evs)%list /\
        forall text, In text (statements evs) ->
          text = setTimeoutSQL this \/ text = "EXPLAIN " ++ finalSQL this sql) /\
    (valid verdict = true ->
     heldConnections (log w') = heldConnections (log w)) /\
    (valid verdict = false ->
     log w' = log w \/ heldConnections (log w') = heldConnections (log w) + 1).
Proof.
  pose proof (sends_In _ _ w (sends_validateSyntax this sql)) as (evs & Hlog & Hall).
  pose proof (executeWithTimeout_held this ("EXPLAIN " ++ sql) noOptions w) as Hheld.
  revert Hlog Hheld.
  unfold validateSyntax, tryCatch, bind, ret.
  destruct (executeWithTimeout this ("EXPLAIN " ++ sql) noOptions w) as [[r|e] w'];
    cbn [snd]; intros Hlog Hheld; eexists; eexists; (split; [reflexivity|]);
    (split; [exists evs; split; [assumption|];
             intros text Hin; rewrite <- finalSQL_explain; auto|]);
    cbn [valid]; split; intros; try discriminate; assumption.
Qed.

Lemma validateSyntax_never_throws_witness :
  exists verdict w',
    validateSyntax (constructor missingTableDriver noEnv)
      "SELECT * FROM nonexistent_table" startOfDay = (Returned verdict, w') /\
    valid verdict = false /\
    heldConnections (log w') = 1.
Proof.
  destruct (validateSyntax_never_throws (constructor missingTableDriver noEnv)
              "SELECT * FROM nonexistent_table" startOfDay)
    as (verdict & w' & Hrun & _ & _ & Hleak).
  exists verdict, w'. split; [assumption|].
  assert (E : validateSyntax (constructor missingTableDriver noEnv)
                "SELECT * FROM nonexistent_table" startOfDay
              = (Returned (SyntaxInvalid "Table does not exist" None),
                 {| clock := 1015;
                    log := [ Connect; Query "SET statement_timeout = 30000";
                             Query "EXPLAIN SELECT * FROM nonexistent_table LIMIT 10000" ] |}))
    by (vm_compute; reflexivity).
  rewrite E in Hrun. injection Hrun as <- <-.
  split; [reflexivity|].
  destruct (Hleak eq_refl) as [H|H]; [discriminate H|exact H].
Defined.

(** X6: [estimateQueryCost] throws only errors whose message starts with
    "Cost estimation failed: ", and returns the two figures of the first
    plan otherwise; when the engine answers with no row it throws, the
    connection having been given back. *)
Theorem estimateQueryCost_failures_are_wrapped (this : Service) (sql : string)
    (w : World) :
  match estimateQueryCost this sql w with
  | (Thrown e, _) => startsWithText "Cost estimation failed: " (message e)
  | (Returned estimate, w') =>
      exists result plan,
        executeWithTimeout this ("EXPLAIN (FORMAT JSON) " ++ sql) noOptions w
          = (Returned result, w') /\
        (exists row, getProp (nth 0 (rows result) JUndefined) "QUERY PLAN"
                       = Returned row /\ getFirst row = Returned plan) /\
        getProp plan "Total Cost" = Returned (totalCost estimate) /\
        getProp plan "Plan Rows" = Returned (estimatedRows estimate)
  end
  /\ (forall result w',
         executeWithTimeout this ("EXPLAIN (FORMAT JSON) " ++ sql) noOptions w
           = (Returned result, w') ->
         rows result = [] ->
         estimateQueryCost this sql w
           = (Thrown (newError ("Cost estimation failed: "
                                  ++ "Cannot read properties of undefined (reading 'QUERY PLAN')")),
              w')
         /\ heldConnections (log w') = heldConnections (log w)).
Proof.
  split.
  - unfold estimateQueryCost, tryCatch, bind, lift, ret, throw.
    destruct (executeWithTimeout this ("EXPLAIN (FORMAT JSON) " ++ sql) noOptions w)
      as [[result|e] w']; [|eexists; reflexivity].
    destruct (getProp (nth 0 (rows result) JUndefined) "QUERY PLAN") as [row|e] eqn:R;
      [|eexists; reflexivity].
    destruct (getFirst row) as [plan|e] eqn:P; [|eexists; reflexivity].
    destruct (getProp plan "Total Cost") as [total|e] eqn:T; [|eexists; reflexivity].
    destruct (getProp plan "Plan Rows") as [estimated|e] eqn:N; [|eexists; reflexivity].
    exists result, plan. cbn [totalCost estimatedRows]. eauto 6.
  - intros result w' Hrun Hrows.
    pose proof (executeWithTimeout_held this ("EXPLAIN (FORMAT JSON) " ++ sql) noOptions w)
      as Hheld.
    rewrite Hrun in Hheld. split; [|assumption].
    unfold estimateQueryCost, tryCatch, bind, lift, ret, throw.
    rewrite Hrun, Hrows. reflexivity.
Qed.

Lemma estimateQueryCost_failures_are_wrapped_witness :
  fst (estimateQueryCost (constructor silentDriver noEnv)
         "SELECT * FROM customers" startOfDay)
  = Thrown (newError ("Cost estimation failed: "
                        ++ "Cannot read properties of undefined (reading 'QUERY PLAN')")).
Proof.
  destruct (proj2 (estimateQueryCost_failures_are_wrapped
                     (constructor silentDriver noEnv) "SELECT * FROM customers"
                     startOfDay)
              {| rows := []; fields := None; rowCount := 0 |}
              {| clock := 1008;
                 log := [ Connect; Query "SET statement_timeout = 30000";
                          Query "EXPLAIN (FORMAT JSON) SELECT * FROM customers LIMIT 10000";
                          Release ] |})
    as [H _]; [vm_compute; reflexivity|reflexivity|].
  now rewrite H.
Defined.

Lemma executeWithTimeout_reaches (this : Service) (sql : string)
    (options : Options) (w : World) :
  reachesStatement this w = true ->
  In (Query (finalSQL this sql))
     (log (snd (executeWithTimeout this sql options w))).
Proof.
  unfold reachesStatement. intros H.
  destruct (answer (connect (primaryDB this) (log w))) as [[]|] eqn:A1; [|discriminate].
  destruct (answer (query (primaryDB this)
                      (log w ++ [Connect; Query (setTimeoutSQL this)])
                      (setTimeoutSQL this))) as [r2|] eqn:A2; [|discriminate].
  apply Z.ltb_lt in H.
  unfold executeWithTimeout, executor, await, emit. cbn [elapsed events].
  assert (T1 : (queryTimeout this
                <=? 0 + Z.of_N (took (connect (primaryDB this) (log w)))) = false)
    by (apply Z.leb_gt; lia).
  rewrite T1, A1. cbn [elapsed events].
  rewrite <- (app_assoc (log w) [Connect] [Query (setTimeoutSQL this)]).
  cbn [app].
  match goal with
  | |- context [queryTimeout this <=? ?t] =>
      assert (T2 : (queryTimeout this <=? t) = false) by (apply Z.leb_gt; lia)
  end.
  rewrite T2, A2. cbn [elapsed events].
  split_replies; cbn [fst snd log events];
    repeat rewrite in_app_iff; cbn [In]; auto 10.
Qed.

(** X7: [getExecutionPlan] asks no verdict of the validator. Whenever the
    driver hands out a client and accepts the timeout setting in time, the
    statement goes to the engine under EXPLAIN with ANALYZE, which runs it,
    whatever the statement is. *)
Theorem getExecutionPlan_runs_any_statement (this : Service) (sql : string)
    (w : World) :
  reachesStatement this w = true ->
  In (Query ("EXPLAIN (FORMAT JSON, ANALYZE, BUFFERS) " ++ finalSQL this sql))
     (log (snd (getExecutionPlan this sql w))).
Proof.
  intros H.
  pose proof (executeWithTimeout_reaches this
                ("EXPLAIN (FORMAT JSON, ANALYZE, BUFFERS) " ++ sql) noOptions w H) as Hin.
  rewrite finalSQL_explain_analyze in Hin.
  unfold getExecutionPlan, tryCatch, bind, lift, throw.
  destruct (executeWithTimeout this _ noOptions w) as [[r|e] w']; cbn [snd] in *;
    [destruct (getProp _ _)|]; assumption.
Qed.

Lemma getExecutionPlan_runs_any_statement_witness :
  validateQuerySafety "DELETE FROM customers" = Rejected (DangerousOperation "DELETE")
  /\ In (Query "EXPLAIN (FORMAT JSON, ANALYZE, BUFFERS) DELETE FROM customers LIMIT 10000")
        (log (snd (getExecutionPlan (constructor obligingDriver noEnv)
                     "DELETE FROM customers" startOfDay))).
Proof.
  split; [vm_compute; reflexivity|].
  apply (getExecutionPlan_runs_any_statement (constructor obligingDriver noEnv)
           "DELETE FROM customers" startOfDay).
  vm_compute. reflexivity.
Defined.

(** ** The orchestrator and its neighbours *)

Lemma executeQuery_result (format : string -> option string) (this : Service)
    (sql : string) (options : Options) (w : World) :
  exists r w',
    executeQuery format this sql options w = (Returned r, w') /\
    sqlOf r = formatSQL format sql /\
    (forall reason,
        validateQuerySafety sql = Rejected reason ->
        w' = w /\ success r = false /\ errorOf r = Some (message_of reason)).
Proof.
  destruct (validateQuerySafety sql) as [|reason] eqn:V.
  - unfold executeQuery, bind, tryCatch, now, awaitValidateQuerySafety, ret.
    rewrite V. cbn [fst snd].
    destruct (executeWithTimeout this (formatSQL format sql) options w)
      as [[result|error] w1];
      eexists; eexists; (split; [reflexivity|]); cbn [sqlOf];
      (split; [reflexivity|]); intros; discriminate.
  - rewrite (executeQuery_rejected format this sql options w reason V).
    eexists; eexists; (split; [reflexivity|]); cbn [sqlOf success errorOf];
      (split; [reflexivity|]). intros reason' H. injection H as <-. auto.
Qed.

(** X8: [NLQService.executeSQL] never reaches its own catch block, and
    the [success: true] and [sql] it writes first are overwritten by the
    spread of the execution result: the object it returns carries the
    success flag of the execution and the formatted SQL, so a statement the
    validator rejects comes back with [success: false] and the reason. *)
Theorem executeSQL_mirrors_the_execution (format : string -> option string)
    (queryService : Service) (sql : string) (options : ProcessOptions) (w : World) :
  exists r o w',
    executeQuery format queryService sql
      {| maxResults := Some (orDefault (opt_maxResults options) 1000) |} w
      = (Returned r, w') /\
    NLQService.executeSQL format queryService sql options w = (Returned o, w') /\
    Obj.get "success" o = Obj.VBool (success r) /\
    Obj.get "sql" o = Obj.VStr (formatSQL format sql) /\
    Obj.get "metadata" o = Obj.VObj [("executed_at", Obj.VNum (clock w'))] /\
    (forall reason,
        validateQuerySafety sql = Rejected reason ->
        Obj.get "success" o = Obj.VBool false /\
        Obj.get "error" o = Obj.VStr (message_of reason)).
Proof.
  destruct (executeQuery_result format queryService sql
              {| maxResults := Some (orDefault (opt_maxResults options) 1000) |} w)
    as (r & w' & Hrun & Hsql & Hrej).
  exists r. unfold NLQService.executeSQL, tryCatch, bind, now, ret.
  rewrite Hrun. eexists; eexists. split; [reflexivity|]. split; [reflexivity|].
  destruct r; cbn [sqlOf success errorOf] in *; subst;
    repeat split; try reflexivity;
    destruct (Hrej reason H) as (_ & Hs & He); try discriminate;
    injection He as <-; reflexivity.
Qed.

Lemma In_firstn {A} (n : nat) (l : list A) (x : A) :
  In x (firstn n l) -> In x l.
Proof.
  intros H. rewrite <- (firstn_skipn n l). apply in_or_app. now left.
Qed.

Lemma executeSQL_mirrors_the_execution_witness :
  exists o w',
    NLQService.executeSQL sampleFormat (constructor obligingDriver noEnv)
      "DROP TABLE customers" defaults startOfDay = (Returned o, w') /\
    Obj.get "success" o = Obj.VBool false /\
    Obj.get "error" o
    = Obj.VStr "Dangerous operation detected: DROP statements are not allowed".
Proof.
  destruct (executeSQL_mirrors_the_execution sampleFormat
              (constructor obligingDriver noEnv) "DROP TABLE customers"
              defaults startOfDay)
    as (r & o & w' & _ & Hrun & _ & _ & _ & Hrej).
  exists o, w'. split; [assumption|].
  apply (Hrej (DangerousOperation "DROP")). vm_compute. reflexivity.
Defined.

(** X9: [getQuerySuggestions] never throws and sends nothing of its own:
    it leaves the world as the initialisation check left it. It offers at
    most five suggestions, each one taken from the fixed list and holding the
    partial query whatever the letter case; an empty partial query yields the
    first five of the list; when the initialisation throws, the answer
    carries the message of its error and no suggestion. *)
Theorem suggestions_match_the_partial_query {Embedding SchemaItem : Type}
    (deps : Collaborators Embedding SchemaItem) (partialQuery : string) (w : World) :
  exists response,
    NLQService.getQuerySuggestions deps partialQuery w
    = (Returned response, snd (ensureInitialized deps w)) /\
    (List.length (NLQService.suggestedItems response) <= 5)%nat /\
    (forall s, In s (NLQService.suggestedItems response) ->
       In s NLQService.suggestions /\
       includes (toLowerCase partialQuery) (toLowerCase s) = true) /\
    (forall u afterCheck,
       ensureInitialized deps w = (Returned u, afterCheck) ->
       response
       = NLQService.Suggested
           (firstn 5 (filter (fun suggestion =>
                                includes (toLowerCase partialQuery)
                                  (toLowerCase suggestion))
                        NLQService.suggestions))
           (clock afterCheck) /\
       (partialQuery = "" ->
        NLQService.suggestedItems response = firstn 5 NLQService.suggestions)) /\
    (forall e afterCheck,
       ensureInitialized deps w = (Thrown e, afterCheck) ->
       response = NLQService.NotSuggested (message e) /\
       NLQService.suggestedItems response = []).
Proof.
  unfold NLQService.getQuerySuggestions. rewrite tryCatch_bind.
  destruct (ensureInitialized deps w) as [[u|e] w1]; cbn [snd].
  - cbv beta zeta. unfold tryCatch, bind, now, ret. cbv beta iota.
    eexists. split; [reflexivity|]. cbn [NLQService.suggestedItems].
    split; [apply firstn_le_length|]. split; [|split].
    + intros s Hs. apply In_firstn in Hs. now apply filter_In in Hs.
    + intros u' w' H. injection H as _ <-. split; [reflexivity|].
      intros ->. vm_compute. reflexivity.
    + intros e w' H. discriminate.
  - unfold ret. eexists. split; [reflexivity|]. cbn [NLQService.suggestedItems].
    split; [cbn; lia|]. split; [intros s []|]. split.
    + intros u w' H. discriminate.
    + intros e' w' H. injection H as <- _. split; reflexivity.
Qed.

Lemma suggestions_match_the_partial_query_witness :
  exists response,
    NLQService.getQuerySuggestions (freshlyStarted obligingDriver "SELECT 1") ""
      startOfDay
    = (Returned response, {| clock := 1005; log := [Query extractSchemaQuery] |}) /\
    NLQService.suggestedItems response = firstn 5 NLQService.suggestions.
Proof.
  destruct (suggestions_match_the_partial_query
              (freshlyStarted obligingDriver "SELECT 1") "" startOfDay)
    as (response & Hrun & _ & _ & Hok & _).
  exists response. split; [exact Hrun|].
  apply (Hok tt {| clock := 1005; log := [Query extractSchemaQuery] |});
    reflexivity.
Defined.

(** X10: [processQuery] never throws. When one of its first three steps
    throws (initialisation, embedding, schema lookup, the language model or
    the parsing of its answer), the answer is the failure object with the
    message of that error, and nothing is sent after the step that threw;
    an error of the generation step has a message that starts with
    "SQL generation failed: ". *)
Theorem processQuery_never_throws {Embedding SchemaItem : Type}
    (format : string -> option string) (queryService : Service)
    (deps : Collaborators Embedding SchemaItem) (query : string)
    (options : ProcessOptions) (w : World) :
  exists response w',
    processQuery format queryService deps query options w = (Returned response, w') /\
    (forall e afterFailure,
        beforeSyntaxCheck deps query options w = (Thrown e, afterFailure) ->
        response = Failed (message e) query (clock afterFailure - clock w) /\
        w' = afterFailure) /\
    (forall schemaContext language w0 e w1,
        generateSQL deps query schemaContext language w0 = (Thrown e, w1) ->
        startsWithText "SQL generation failed: " (message e)).
Proof.
  pose proof (processQuery_resumes format queryService deps query options w) as R.
  assert (G : forall schemaContext language w0 e w1,
             generateSQL deps query schemaContext language w0 = (Thrown e, w1) ->
             startsWithText "SQL generation failed: " (message e)).
  { intros schemaContext language w0 e w1. unfold generateSQL.
    rewrite tryCatch_bind.
    destruct (generateContent deps query schemaContext language w0) as [[resp|e0] w2].
    - unfold tryCatch, lift, throw.
      destruct (parseSQLResponse resp); [discriminate|].
      intros H. injection H as <- _. eexists. reflexivity.
    - unfold throw. intros H. injection H as <- _. eexists. reflexivity. }
  destruct (beforeSyntaxCheck deps query options w) as [[sqlResult|e] w1].
  - destruct R as (schemaContext & ->).
    destruct (afterGeneration_returns format queryService query options (clock w)
                schemaContext sqlResult w1) as (response & w' & ->).
    exists response, w'. split; [reflexivity|]. split; [|exact G].
    intros; discriminate.
  - rewrite R. eexists; eexists. split; [reflexivity|]. split; [|exact G].
    intros e' w' H. injection H as <- <-. auto.
Qed.

Lemma processQuery_never_throws_witness :
  processQuery verbatim (constructor obligingDriver noEnv)
    (freshlyStarted obligingDriver "DELETE FROM customers")
    "remove every customer" defaults startOfDay
  = (Returned
       (Failed "SQL generation failed: SQL parsing failed: Only SELECT queries are allowed"
          "remove every customer" 5),
     {| clock := 1005; log := [Query extractSchemaQuery] |}).
Proof.
  destruct (processQuery_never_throws verbatim (constructor obligingDriver noEnv)
              (freshlyStarted obligingDriver "DELETE FROM customers")
              "remove every customer" defaults startOfDay)
    as (response & w' & Hrun & Hfail & _).
  rewrite Hrun.
  destruct (Hfail
              (newError "SQL generation failed: SQL parsing failed: Only SELECT queries are allowed")
              {| clock := 1005; log := [Query extractSchemaQuery] |})
    as [-> ->]; [vm_compute; reflexivity|reflexivity].
Defined.

Lemma afterGeneration_Processed {SchemaItem : Type}
    (format : string -> option string) (queryService : Service)
    (query : string) (options : ProcessOptions) (startTime : Z)
    (schemaContext : list SchemaItem) (sqlResult : SqlResult) (w w' : World)
    (q language sql : string) (explained : option string)
    (ctx : list SchemaItem) (cost : CostEstimate) (r : ExecutionResult) (t : Z) :
  afterGeneration format queryService query options startTime
    schemaContext sqlResult w
  = (Returned (Processed q language sql explained ctx cost (Some r) t), w') ->
  sql = generated sqlResult /\
  (forall reason,
      validateQuerySafety sql = Rejected reason ->
      success r = false /\ errorOf r = Some (message_of reason)).
Proof.
  unfold afterGeneration. rewrite tryCatch_bind.
  destruct (validateSyntax queryService (generated sqlResult) w) as [[verdict|e] w1];
    [|unfold bind, now, ret; cbv beta iota; discriminate].
  cbv beta.
  destruct (negb (valid verdict));
    [unfold tryCatch, bind, now, ret; cbv beta iota; discriminate|].
  rewrite tryCatch_bind.
  destruct (estimateQueryCost queryService (generated sqlResult) w1)
    as [[estimate|e] w2];
    [|unfold bind, now, ret; cbv beta iota; discriminate].
  cbv beta.
  destruct (orDefault (opt_validateBeforeExecution options) true);
    [|unfold tryCatch, bind, now, ret; cbv beta iota; discriminate].
  destruct (executeQuery_result format queryService (generated sqlResult)
              {| maxResults := Some (orDefault (opt_maxResults options) 1000) |} w2)
    as (r0 & w3 & Hrun & _ & Hrej).
  unfold tryCatch, bind, now, ret. rewrite Hrun. cbv beta iota.
  intros H. injection H as <- <- <- <- <- <- <- <- <-.
  split; [reflexivity|]. intros reason V. now destruct (Hrej reason V) as (_ & ? & ?).
Qed.

(** X11: the object [processQuery] returns with [success: true] says
    nothing about the execution inside it: whenever it carries an execution
    result for SQL that the validator rejects, that result has
    [success: false] and the validator's message. *)
Theorem processQuery_succeeds_around_a_rejection {Embedding SchemaItem : Type}
    (format : string -> option string) (queryService : Service)
    (deps : Collaborators Embedding SchemaItem) (query : string)
    (options : ProcessOptions) (w w' : World)
    (q language sql : string) (explained : option string)
    (schemaContext : list SchemaItem) (cost : CostEstimate)
    (r : ExecutionResult) (t : Z) :
  processQuery format queryService deps query options w
  = (Returned (Processed q language sql explained schemaContext cost (Some r) t), w') ->
  generatedSQL deps query options w = Some sql /\
  (forall reason,
      validateQuerySafety sql = Rejected reason ->
      success r = false /\ errorOf r = Some (message_of reason)).
Proof.
  pose proof (processQuery_resumes format queryService deps query options w) as R.
  unfold generatedSQL.
  destruct (beforeSyntaxCheck deps query options w) as [[sqlResult|e] w1]; cbn [fst].
  - destruct R as (ctx & ->). intros H.
    apply afterGeneration_Processed in H as [-> Hrej]. auto.
  - rewrite R. discriminate.
Qed.

Lemma processQuery_succeeds_around_a_rejection_witness :
  success (ExecFailure "Query contains potentially dangerous subqueries" 0
             "SELECT * FROM pg_user" {| executed_at := 1030; sandbox_mode := false |})
  = false.
Proof.
  refine (proj1 (proj2 (processQuery_succeeds_around_a_rejection verbatim
            (constructor obligingDriver noEnv) (answering "SELECT * FROM pg_user")
            "list users" defaults startOfDay
            {| clock := 1030;
               log := [ Connect; Query "SET statement_timeout = 30000";
                        Query "EXPLAIN SELECT * FROM pg_user LIMIT 10000"; Release;
                        Connect; Query "SET statement_timeout = 30000";
                        Query "EXPLAIN (FORMAT JSON) SELECT * FROM pg_user LIMIT 10000";
                        Release ] |}
            "list users" "en" "SELECT * FROM pg_user" (Some "") []
            {| totalCost := JNum 25; estimatedRows := JNum 100 |}
            (ExecFailure "Query contains potentially dangerous subqueries" 0
               "SELECT * FROM pg_user" {| executed_at := 1030; sandbox_mode := false |})
            30 _) DangerousSubquery _)).
  - vm_compute. reflexivity.
  - vm_compute. reflexivity.
Defined.

(** ** Request validation *)

Lemma trimStart_fixed (t : string) :
  match t with
  | EmptyString => True
  | String c _ => isWhiteSpace c = false
  end ->
  trimStart t = t.
Proof.
  destruct t as [|c t]; [reflexivity|]. intros H. cbn [trimStart]. now rewrite H.
Qed.

Lemma trimStart_head (s : string) :
  match trimStart s with
  | EmptyString => True
  | String c _ => isWhiteSpace c = false
  end.
Proof.
  induction s as [|c s IH]; [exact I|].
  cbn [trimStart]. destruct (isWhiteSpace c) eqn:E; [exact IH|exact E].
Qed.

Lemma trimEnd_head (t : string) :
  match t with
  | EmptyString => True
  | String c _ => isWhiteSpace c = false
  end ->
  match trimEnd t with
  | EmptyString => True
  | String c _ => isWhiteSpace c = false
  end.
Proof.
  destruct t as [|c t]; [trivial|]. intros H.
  rewrite trimEnd_cons, H. exact H.
Qed.

Lemma trimEnd_idempotent (u : string) : trimEnd (trimEnd u) = trimEnd u.
Proof.
  induction u as [|c u IH]; [reflexivity|].
  rewrite trimEnd_cons.
  destruct (isWhiteSpace c && negb (nonEmpty (trimEnd u)))%bool eqn:E; [reflexivity|].
  now rewrite trimEnd_cons, IH, E.
Qed.

Lemma trim_head (s : string) :
  match trim s with
  | EmptyString => True
  | String c _ => isWhiteSpace c = false
  end.
Proof. apply trimEnd_head, trimStart_head. Qed.

(** Trimming twice is trimming once. *)
Lemma trim_idempotent (s : string) : trim (trim s) = trim s.
Proof.
  unfold trim at 1. rewrite (trimStart_fixed (trim s) (trim_head s)).
  unfold trim. apply trimEnd_idempotent.
Qed.

Lemma validateLimit_bounds (limit : option string) (maxLimit defaultLimit : Z) :
  1 <= defaultLimit <= maxLimit ->
  1 <= ValidationService.validateLimit limit maxLimit defaultLimit <= maxLimit.
Proof.
  intros H. unfold ValidationService.validateLimit.
  destruct (match limit with Some text => parseInt text | None => None end) as [n|];
    [|lia].
  destruct (Z.leb_spec n 0); [lia|].
  destruct (Z.ltb_spec maxLimit n); lia.
Qed.

(** X12: with a default between 1 and the maximum, [validateLimit]
    always answers a number between 1 and the maximum: a limit that does not
    parse, or parses to zero or less, gives the default, one above the
    maximum gives the maximum, and any other comes back as parsed. *)
Theorem validateLimit_clamps (limit : option string) (maxLimit defaultLimit : Z) :
  1 <= defaultLimit <= maxLimit ->
  1 <= ValidationService.validateLimit limit maxLimit defaultLimit <= maxLimit
  /\ (forall text n,
         limit = Some text -> parseInt text = Some n ->
         ValidationService.validateLimit limit maxLimit defaultLimit
         = if n <=? 0 then defaultLimit else Z.min n maxLimit)
  /\ (forall text,
         limit = Some text -> parseInt text = None ->
         ValidationService.validateLimit limit maxLimit defaultLimit = defaultLimit)
  /\ (limit = None ->
      ValidationService.validateLimit limit maxLimit defaultLimit = defaultLimit).
Proof.
  intros H. split; [now apply validateLimit_bounds|].
  unfold ValidationService.validateLimit. split; [|split].
  - intros text n -> ->. destruct (Z.leb_spec n 0); [reflexivity|].
    destruct (Z.ltb_spec maxLimit n); lia.
  - now intros text -> ->.
  - now intros ->.
Qed.

Lemma validateLimit_clamps_witness :
  ValidationService.validateLimit (Some "250") 100 5 = 100
  /\ ValidationService.validateLimit (Some " 25 per page") 100 5 = 25
  /\ ValidationService.validateLimit (Some "-3") 100 5 = 5
  /\ ValidationService.validateLimit (Some "ten") 100 5 = 5.
Proof.
  assert (B : 1 <= 5 <= 100) by lia.
  split; [|split; [|split]].
  - now rewrite (proj1 (proj2 (validateLimit_clamps (Some "250") 100 5 B))
                   "250" 250 eq_refl eq_refl).
  - now rewrite (proj1 (proj2 (validateLimit_clamps (Some " 25 per page") 100 5 B))
                   " 25 per page" 25 eq_refl eq_refl).
  - now rewrite (proj1 (proj2 (validateLimit_clamps (Some "-3") 100 5 B))
                   "-3" (-3) eq_refl eq_refl).
  - now apply (proj1 (proj2 (proj2 (validateLimit_clamps (Some "ten") 100 5 B)))
                 "ten").
Defined.

Lemma orNull_Some (found : option string) (v : string) :
  ValidationService.orNull found = Some v -> found = Some v /\ v <> "".
Proof.
  destruct found as [[|c s]|]; cbn; try discriminate.
  intros H. injection H as <-. split; [reflexivity|discriminate].
Qed.

(** X13: a category that [validateCategory] returns is an entry of the
    list, spelled as in the list, that equals the trimmed input up to letter
    case; validating it again returns it unchanged, and so an entry that
    begins or ends with white space is never returned. *)
Theorem validateCategory_returns_a_listed_name (category : option string)
    (validCategories : list string) (v : string) :
  ValidationService.validateCategory category validCategories = Some v ->
  In v validCategories /\
  v <> "" /\
  (exists text, category = Some text /\ toLowerCase v = trim (toLowerCase text)) /\
  trim (toLowerCase v) = toLowerCase v /\
  ValidationService.validateCategory (Some v) validCategories = Some v.
Proof.
  unfold ValidationService.validateCategory.
  destruct category as [[|c text]|]; try discriminate.
  intros H. apply orNull_Some in H as [Hfind Hne].
  pose proof (find_some _ _ Hfind) as [Hin Heq]. cbv beta in Heq.
  apply String.eqb_eq in Heq.
  assert (Htrim : trim (toLowerCase v) = toLowerCase v)
    by (rewrite Heq; apply trim_idempotent).
  repeat split; try assumption.
  - eauto.
  - destruct v as [|a v]; [contradiction|].
    rewrite Htrim, Heq, Hfind. reflexivity.
Qed.

Lemma validateCategory_returns_a_listed_name_witness :
  In "Home & Garden" ["Electronics"; "Home & Garden"]
  /\ ValidationService.validateCategory (Some "Home & Garden")
       ["Electronics"; "Home & Garden"] = Some "Home & Garden".
Proof.
  destruct (validateCategory_returns_a_listed_name (Some "  home & GARDEN ")
              ["Electronics"; "Home & Garden"] "Home & Garden" eq_refl)
    as (Hin & _ & _ & _ & Hagain).
  split; assumption.
Defined.

(** X14: with the default list, [validateStatus] answers nothing or one
    of the six statuses in lower case, whatever the case and the surrounding
    white space of the input; an empty, blank or unknown status gives
    nothing. *)
Theorem validateStatus_is_one_of_six (status : option string) :
  match ValidationService.validateStatus status ValidationService.defaultStatuses with
  | Some v =>
      In v ValidationService.defaultStatuses /\
      exists text, status = Some text /\ v = trim (toLowerCase text)
  | None =>
      forall text, status = Some text ->
        ~ In (trim (toLowerCase text)) ValidationService.defaultStatuses
  end.
Proof.
  assert (Lower : forall s, In s ValidationService.defaultStatuses -> toLowerCase s = s).
  { intros s Hs. unfold ValidationService.defaultStatuses in Hs. cbn [In] in Hs.
    repeat (destruct Hs as [<-|Hs]; [reflexivity|]). contradiction. }
  unfold ValidationService.validateStatus.
  destruct status as [[|c text]|].
  - intros text H. injection H as <-. vm_compute. intuition discriminate.
  - set (input := String c text).
    set (normalized := trim (toLowerCase input)).
    destruct (ValidationService.orNull _) as [v|] eqn:E.
    + apply orNull_Some in E as [Hfind _].
      pose proof (find_some _ _ Hfind) as [Hin Heq]. cbv beta in Heq.
      apply String.eqb_eq in Heq. split; [assumption|].
      exists input. split; [reflexivity|]. now rewrite <- (Lower v Hin).
    + intros text' H Hin. injection H as <-. fold normalized in Hin.
      assert (Hnone : find (fun s => String.eqb (toLowerCase s) normalized)
                        ValidationService.defaultStatuses = None).
      { destruct (find _ ValidationService.defaultStatuses) as [[|a s]|] eqn:F;
          [|discriminate E|reflexivity].
        apply find_some in F as [F _].
        unfold ValidationService.defaultStatuses in F. cbn [In] in F.
        intuition discriminate. }
      pose proof (find_none _ _ Hnone _ Hin) as Hneq. cbv beta in Hneq.
      apply String.eqb_neq in Hneq. apply Hneq. now apply Lower.
  - intros text H. discriminate.
Qed.

Lemma occurs_removeAll (inClass : ascii -> bool) (c : ascii) (s : string) :
  occurs c (removeAll inClass s) = true -> inClass c = false /\ occurs c s = true.
Proof.
  induction s as [|b s IH]; [discriminate|].
  cbn [removeAll occurs]. destruct (inClass b) eqn:B.
  - intros H. destruct (IH H) as [Hc Ho]. split; [assumption|].
    rewrite Ho. apply orb_true_r.
  - cbn [occurs]. intros H. apply orb_true_iff in H as [H|H].
    + apply Ascii.eqb_eq in H; subst b. rewrite Ascii.eqb_refl. auto.
    + destruct (IH H) as [Hc Ho]. split; [assumption|].
      rewrite Ho. apply orb_true_r.
Qed.

Lemma occurs_trimStart (c : ascii) (s : string) :
  occurs c (trimStart s) = true -> occurs c s = true.
Proof.
  induction s as [|b s IH]; [trivial|].
  cbn [trimStart]. destruct (isWhiteSpace b); [|trivial].
  intros H. cbn [occurs]. rewrite (IH H). apply orb_true_r.
Qed.

Lemma occurs_trimEnd (c : ascii) (s : string) :
  occurs c (trimEnd s) = true -> occurs c s = true.
Proof.
  induction s as [|b s IH]; [trivial|].
  rewrite trimEnd_cons. destruct (_ && _)%bool; [discriminate|].
  cbn [occurs]. intros H. apply orb_true_iff in H as [H|H].
  - now rewrite H.
  - rewrite (IH H). apply orb_true_r.
Qed.

Lemma occurs_firstChars (c : ascii) (n : nat) (s : string) :
  occurs c (firstChars n s) = true -> occurs c s = true.
Proof.
  revert s; induction n as [|n IH]; intros [|b s]; try discriminate.
  cbn [firstChars occurs]. intros H. apply orb_true_iff in H as [H|H].
  - now rewrite H.
  - rewrite (IH s H). apply orb_true_r.
Qed.

Lemma length_firstChars (n : nat) (s : string) :
  (String.length (firstChars n s) <= n)%nat.
Proof.
  revert s; induction n as [|n IH]; intros [|b s]; cbn; try lia.
  specialize (IH s). lia.
Qed.

Lemma sanitizeString_length (input : option string) (maxLength : Z) :
  0 <= maxLength ->
  lengthOf (ValidationService.sanitizeString input maxLength) <= maxLength.
Proof.
  intros H. unfold ValidationService.sanitizeString.
  destruct input as [text|]; [|cbn; lia].
  cbv zeta. destruct (Z.ltb_spec maxLength (lengthOf (trim (removeAll
    ValidationService.isQuote (removeAll ValidationService.isAngle text)))))
    as [L|L]; [|exact L].
  unfold substringFromStart, lengthOf.
  pose proof (length_firstChars (Z.to_nat maxLength)
                (trim (removeAll ValidationService.isQuote
                         (removeAll ValidationService.isAngle text)))).
  lia.
Qed.

(** X15: the string [sanitizeString] returns holds no angle bracket and
    no quote, does not begin with white space, and is no longer than a
    non-negative maximum; anything that is not a string gives the empty
    string. *)
Theorem sanitizeString_is_clean_and_short (input : option string) (maxLength : Z) :
  (forall c,
      (ValidationService.isAngle c || ValidationService.isQuote c)%bool = true ->
      occurs c (ValidationService.sanitizeString input maxLength) = false)
  /\ trimStart (ValidationService.sanitizeString input maxLength)
     = ValidationService.sanitizeString input maxLength
  /\ (0 <= maxLength ->
      lengthOf (ValidationService.sanitizeString input maxLength) <= maxLength)
  /\ (input = None -> ValidationService.sanitizeString input maxLength = "").
Proof.
  split; [|split; [|split]].
  - intros c Hc.
    destruct (occurs c (ValidationService.sanitizeString input maxLength)) eqn:O;
      [|reflexivity].
    unfold ValidationService.sanitizeString in O.
    destruct input as [text|]; [|discriminate]. cbv zeta in O.
    assert (O' : occurs c (trim (removeAll ValidationService.isQuote
                                   (removeAll ValidationService.isAngle text))) = true).
    { destruct (_ <? _) in O; [now apply occurs_firstChars in O|exact O]. }
    unfold trim in O'. apply occurs_trimEnd, occurs_trimStart in O'.
    apply occurs_removeAll in O' as [Hq O'].
    apply occurs_removeAll in O' as [Ha _].
    rewrite Ha, Hq in Hc. discriminate.
  - unfold ValidationService.sanitizeString.
    destruct input as [text|]; [|reflexivity]. cbv zeta.
    set (t := trim _). pose proof (trim_head (removeAll ValidationService.isQuote
                                    (removeAll ValidationService.isAngle text))) as Hh.
    fold t in Hh. apply trimStart_fixed.
    destruct (_ <? _); [|exact Hh].
    unfold substringFromStart. destruct (Z.to_nat maxLength); [now destruct t|].
    destruct t; [exact I|exact Hh].
  - apply sanitizeString_length.
  - now intros ->.
Qed.

Lemma sanitizeString_is_clean_and_short_witness :
  lengthOf (ValidationService.sanitizeString
              (Some "  <b>O'Brien</b> the customer  ") 10) <= 10.
Proof.
  apply (proj1 (proj2 (proj2 (sanitizeString_is_clean_and_short
           (Some "  <b>O'Brien</b> the customer  ") 10)))).
  lia.
Defined.

(** X16: the range [validateDateRange] returns is always ordered; it is
    flagged invalid exactly when one of the two dates is, and is then the
    thirty days (2 592 000 000 ms) up to now; two valid dates in order are
    each cut back to now, while two dates given in reverse order are swapped
    and left as they are, in the future or not. *)
Theorem validateDateRange_is_ordered (start finish : option Z) (now : Z) :
  ValidationService.startDate (ValidationService.validateDateRange start finish now)
  <= ValidationService.endDate (ValidationService.validateDateRange start finish now)
  /\ (ValidationService.isValid (ValidationService.validateDateRange start finish now)
      = false <-> start = None \/ finish = None)
  /\ (start = None \/ finish = None ->
      ValidationService.validateDateRange start finish now
      = {| ValidationService.startDate := now - 2592000000;
           ValidationService.endDate := now;
           ValidationService.isValid := false |})
  /\ (forall s e, start = Some s -> finish = Some e -> s <= e ->
        ValidationService.validateDateRange start finish now
        = {| ValidationService.startDate := Z.min s now;
             ValidationService.endDate := Z.min e now;
             ValidationService.isValid := true |})
  /\ (forall s e, start = Some s -> finish = Some e -> e < s ->
        ValidationService.validateDateRange start finish now
        = {| ValidationService.startDate := e;
             ValidationService.endDate := s;
             ValidationService.isValid := true |}).
Proof.
  unfold ValidationService.validateDateRange, ValidationService.thirtyDays.
  split; [|split; [|split; [|split]]].
  - destruct start as [s|], finish as [e|]; cbn; try lia.
    destruct (Z.ltb_spec e s); cbn; [lia|].
    destruct (Z.ltb_spec now s), (Z.ltb_spec now e); lia.
  - destruct start as [s|], finish as [e|]; cbn; try tauto.
    destruct (e <? s); cbn; split; try discriminate; intros [H|H]; discriminate.
  - destruct start as [s|], finish as [e|]; intros [H|H]; try discriminate;
      reflexivity.
  - intros s e -> -> H. destruct (Z.ltb_spec e s); [lia|].
    destruct (Z.ltb_spec now s), (Z.ltb_spec now e); f_equal; lia.
  - intros s e -> -> H. destruct (Z.ltb_spec e s); [reflexivity|lia].
Qed.

Lemma validateDateRange_is_ordered_witness :
  ValidationService.validateDateRange (Some 9000) (Some 2000) 5000
  = {| ValidationService.startDate := 2000;
       ValidationService.endDate := 9000;
       ValidationService.isValid := true |}
  /\ ValidationService.validateDateRange None (Some 2000) 3000000000
     = {| ValidationService.startDate := 408000000;
          ValidationService.endDate := 3000000000;
          ValidationService.isValid := false |}.
Proof.
  split.
  - apply (proj2 (proj2 (proj2 (proj2
             (validateDateRange_is_ordered (Some 9000) (Some 2000) 5000))))
             9000 2000); [reflexivity|reflexivity|lia].
  - apply (proj1 (proj2 (proj2
             (validateDateRange_is_ordered None (Some 2000) 3000000000)))).
    now left.
Defined.

(** X17: what [validateQueryParams] hands on: a limit between 1 and 100,
    never a category (the category is validated against the empty default
    list), a status that is one of the six or nothing, a search text of at
    most 100 characters and a sort key of at most 50, and a sort order that
    is desc only for the exact string desc. *)
Theorem validateQueryParams_hands_on (query : ValidationService.QueryParams) :
  1 <= ValidationService.v_limit (ValidationService.validateQueryParams query) <= 100
  /\ ValidationService.v_category (ValidationService.validateQueryParams query) = None
  /\ (forall s,
        ValidationService.v_status (ValidationService.validateQueryParams query) = Some s ->
        In s ValidationService.defaultStatuses)
  /\ lengthOf (ValidationService.v_search (ValidationService.validateQueryParams query))
     <= 100
  /\ lengthOf (ValidationService.v_sortBy (ValidationService.validateQueryParams query))
     <= 50
  /\ (ValidationService.v_sortOrder (ValidationService.validateQueryParams query) = "desc"
      <-> ValidationService.q_sortOrder query = Some "desc")
  /\ (ValidationService.v_sortOrder (ValidationService.validateQueryParams query) = "asc"
      <-> ValidationService.q_sortOrder query <> Some "desc").
Proof.
  unfold ValidationService.validateQueryParams.
  cbn [ValidationService.v_limit ValidationService.v_category
       ValidationService.v_status ValidationService.v_search
       ValidationService.v_sortBy ValidationService.v_sortOrder].
  split; [apply validateLimit_bounds; lia|].
  split; [unfold ValidationService.validateCategory;
          now destruct (ValidationService.q_category query) as [[|c t]|]|].
  split.
  { intros s H. unfold ValidationService.validateStatus in H.
    destruct (ValidationService.q_status query) as [[|c t]|]; try discriminate.
    apply orNull_Some in H as [H _]. now apply find_some in H. }
  split; [apply sanitizeString_length; lia|].
  split; [apply sanitizeString_length; lia|].
  destruct (ValidationService.q_sortOrder query) as [order|].
  - destruct (String.eqb_spec order "desc") as [->|N];
      intuition (try discriminate; try congruence).
  - intuition (try discriminate; try congruence).
Qed.

(** ** The LangChain-based service *)

Lemma existsb_andb_const {A} (f : A -> bool) (b : bool) (l : list A) :
  existsb (fun x => f x && b)%bool l = (existsb f l && b)%bool.
Proof.
  induction l as [|x l IH]; cbn [existsb]; [reflexivity|].
  rewrite IH. now destruct (f x), (existsb f l), b.
Qed.

(** X18: in [validateSQL] one allowed function name anywhere in the text
    switches the keyword check off for the whole text: a statement that
    starts with select and mentions current_date, current_timestamp, now()
    or date_trunc passes the lexical checks whatever keywords it holds;
    without such a name, a text holding one of the six keywords is refused
    before the engine is asked. *)
Theorem allowed_function_switches_keyword_check_off (sql : string) :
  startsWith "select" (toLowerCase (trim sql)) = true ->
  (existsb (fun func => includes func (toLowerCase (trim sql)))
     AdvancedNLQ.allowedFunctions = true ->
   AdvancedNLQ.lexicalChecks sql = Returned tt)
  /\ (existsb (fun func => includes func (toLowerCase (trim sql)))
        AdvancedNLQ.allowedFunctions = false ->
      forall keyword,
        In keyword AdvancedNLQ.dangerousKeywords ->
        includes keyword (toLowerCase (trim sql)) = true ->
        exists k,
          In k AdvancedNLQ.dangerousKeywords /\
          includes k (toLowerCase (trim sql)) = true /\
          AdvancedNLQ.lexicalChecks sql
          = Thrown (newError ("Dangerous operation '" ++ k ++ "' is not allowed"))).
Proof.
  intros S. unfold AdvancedNLQ.lexicalChecks. cbv zeta. rewrite S. cbn [negb].
  split.
  - intros A.
    destruct (find _ AdvancedNLQ.dangerousKeywords) as [k|] eqn:F; [|reflexivity].
    apply find_some in F as [_ F]. cbv beta in F.
    rewrite existsb_andb_const, A in F.
    destruct (includes k (toLowerCase (trim sql))); discriminate.
  - intros A keyword Hin Hk.
    destruct (find _ AdvancedNLQ.dangerousKeywords) as [k|] eqn:F.
    + pose proof (find_some _ _ F) as [Hin' F']. cbv beta in F'.
      apply andb_true_iff in F' as [F' _]. eauto.
    + pose proof (find_none _ _ F keyword Hin) as N. cbv beta in N.
      rewrite existsb_andb_const, A, Hk in N. discriminate.
Qed.

Lemma allowed_function_switches_keyword_check_off_witness :
  AdvancedNLQ.lexicalChecks "select now(); drop table customers" = Returned tt
  /\ exists k,
       AdvancedNLQ.lexicalChecks "select 1; drop table customers"
       = Thrown (newError ("Dangerous operation '" ++ k ++ "' is not allowed")).
Proof.
  split.
  - apply (proj1 (allowed_function_switches_keyword_check_off
                    "select now(); drop table customers" eq_refl)).
    reflexivity.
  - destruct (proj2 (allowed_function_switches_keyword_check_off
                       "select 1; drop table customers" eq_refl)
                eq_refl "drop") as (k & _ & _ & H);
      [cbn; tauto|reflexivity|].
    exists k. exact H.
Defined.

(** X19: [validateSQL] asks the engine last. A text refused by the
    lexical checks throws their error and nothing is sent; otherwise exactly
    one statement goes out, EXPLAIN followed by the text as it is (no LIMIT,
    no timeout setting), and the answer is [true] or an error whose message
    is that of the engine behind "SQL syntax error: ". *)
Theorem validateSQL_asks_the_engine_last (primaryDB : Driver) (sql : string)
    (w : World) :
  match AdvancedNLQ.lexicalChecks sql with
  | Thrown e => AdvancedNLQ.validateSQL primaryDB sql w = (Thrown e, w)
  | Returned _ =>
      log (snd (AdvancedNLQ.validateSQL primaryDB sql w))
      = (log w ++ [Query ("EXPLAIN " ++ sql)])%list /\
      match answer (query primaryDB (log w ++ [Query ("EXPLAIN " ++ sql)])%list
                      ("EXPLAIN " ++ sql)) with
      | Returned _ =>
          fst (AdvancedNLQ.validateSQL primaryDB sql w) = Returned true
      | Thrown e =>
          fst (AdvancedNLQ.validateSQL primaryDB sql w)
          = Thrown (newError ("SQL syntax error: " ++ message e))
      end
  end.
Proof.
  unfold AdvancedNLQ.validateSQL, tryCatch, bind, lift, throw, ret,
    AdvancedNLQ.poolQuery.
  destruct (AdvancedNLQ.lexicalChecks sql) as [u|e]; [|reflexivity].
  cbv zeta.
  destruct (answer (query primaryDB (log w ++ [Query ("EXPLAIN " ++ sql)])
                      ("EXPLAIN " ++ sql))) as [r|e]; cbn [fst snd log]; auto.
Qed.

(** X20: the five-step [processQuery] never throws and, once steps 1 to
    3 have produced the SQL, sends at most two statements, in this order:
    EXPLAIN of the generated SQL, then the generated SQL itself, as
    generated. A text refused by the lexical checks sends nothing; when the
    engine refuses the EXPLAIN, the SQL is not executed and the answer
    carries "SQL syntax error: " and the engine's message; the SQL is
    executed only after both checks, and the answer has [success: true]
    exactly when that execution returns. *)
Theorem advanced_processQuery_validates_first (primaryDB : Driver)
    (sources : AdvancedNLQ.Sources) (question : string) (w : World) :
  match sqlSource sources question w with
  | (Thrown e, afterSource) =>
      AdvancedNLQ.processQuery primaryDB sources question w
      = (Returned (AdvancedNLQ.Unanswered question (message e)
                     (clock afterSource - clock w)), afterSource)
  | (Returned sql, afterSource) =>
      match AdvancedNLQ.lexicalChecks sql with
      | Thrown e =>
          AdvancedNLQ.processQuery primaryDB sources question w
          = (Returned (AdvancedNLQ.Unanswered question (message e)
                         (clock afterSource - clock w)), afterSource)
      | Returned _ =>
          match answer (Exec.query primaryDB
                          (log afterSource ++ [Query ("EXPLAIN " ++ sql)])%list
                          ("EXPLAIN " ++ sql)) with
          | Thrown e =>
              log (snd (AdvancedNLQ.processQuery primaryDB sources question w))
              = (log afterSource ++ [Query ("EXPLAIN " ++ sql)])%list /\
              exists t,
                fst (AdvancedNLQ.processQuery primaryDB sources question w)
                = Returned (AdvancedNLQ.Unanswered question
                              ("SQL syntax error: " ++ message e) t)
          | Returned _ =>
              log (snd (AdvancedNLQ.processQuery primaryDB sources question w))
              = (log afterSource ++ [Query ("EXPLAIN " ++ sql); Query sql])%list /\
              match answer (Exec.query primaryDB
                              (log afterSource
                                 ++ [Query ("EXPLAIN " ++ sql); Query sql])%list
                              sql) with
              | Returned result =>
                  exists t,
                    fst (AdvancedNLQ.processQuery primaryDB sources question w)
                    = Returned
                        (AdvancedNLQ.Answered question sql
                           {| AdvancedNLQ.data := rows result;
                              AdvancedNLQ.columnNames :=
                                match fields result with
                                | Some fs => map name fs
                                | None => []
                                end;
                              AdvancedNLQ.rowTotal :=
                                Z.of_nat (List.length (rows result)) |} t)
              | Thrown e =>
                  exists t,
                    fst (AdvancedNLQ.processQuery primaryDB sources question w)
                    = Returned (AdvancedNLQ.Unanswered question (message e) t)
              end
          end
      end
  end.
Proof.
  unfold AdvancedNLQ.processQuery, sqlSource.
  rewrite bind_now, tryCatch_bind, bind_run.
  destruct (AdvancedNLQ.ensureInitialized sources w) as [[u|e] w1]; [|reflexivity].
  cbv beta. rewrite tryCatch_bind.
  destruct (AdvancedNLQ.generateSQLWithLangChain sources question w1)
    as [[sql|e] w2]; [|reflexivity].
  cbv beta.
  unfold AdvancedNLQ.validateSQL, AdvancedNLQ.executeSQL, AdvancedNLQ.poolQuery,
    tryCatch, bind, lift, throw, ret, now.
  destruct (AdvancedNLQ.lexicalChecks sql) as [[]|e]; [|reflexivity].
  cbv zeta.
  destruct (answer (Exec.query primaryDB (log w2 ++ [Query ("EXPLAIN " ++ sql)])
                      ("EXPLAIN " ++ sql))) as [r|e]; cbn [fst snd log clock].
  2: { split; [reflexivity|]. eexists. reflexivity. }
  rewrite <- app_assoc. cbn [app].
  destruct (answer (Exec.query primaryDB
                      (log w2 ++ [Query ("EXPLAIN " ++ sql); Query sql]) sql))
    as [r2|e]; cbn [fst snd log clock];
    (split; [reflexivity|]); eexists; reflexivity.
Qed.

Lemma advanced_processQuery_validates_first_witness :
  log (snd (AdvancedNLQ.processQuery obligingDriver
              {| AdvancedNLQ.ensureInitialized := ret tt;
                 AdvancedNLQ.generateSQLWithLangChain := fun _ =>
                   ret "select now(); drop table customers" |}
              "what time is it" startOfDay))
  = [ Query "EXPLAIN select now(); drop table customers";
      Query "select now(); drop table customers" ].
Proof.
  pose proof (advanced_processQuery_validates_first obligingDriver
                {| AdvancedNLQ.ensureInitialized := ret tt;
                   AdvancedNLQ.generateSQLWithLangChain := fun _ =>
                     ret "select now(); drop table customers" |}
                "what time is it" startOfDay) as H.
  change (sqlSource _ _ startOfDay)
    with (@Returned string "select now(); drop table customers", startOfDay) in H.
  cbv beta iota in H.
  change (AdvancedNLQ.lexicalChecks "select now(); drop table customers")
    with (Returned tt) in H.
  cbv beta iota in H.
  exact (proj1 H).
Defined.
